(** * Ticket service: a shallow embedding of the FastAPI ticket module

    The development follows the layout of the repository:
    - [app/ticket/models.py]   -> [Module Ticket] and the [tickets] table,
    - [app/ticket/schemas.py]  -> [TicketCreate], [TicketUpdate], [TicketOut],
    - [app/ticket/services.py] -> [Module services],
    - [app/ticket/routes.py]   -> [Module routes] and the router section,
    - [app/core/config.py]     -> [Module Settings].

    The SQLAlchemy session is modelled by a state-and-exception monad over the
    committed contents of the [tickets] table; pydantic validation of request
    bodies and of [response_model] values is modelled by partial functions. *)

From Stdlib Require Import ZArith List String Bool Lia Sorted.
Import ListNotations.

Local Open Scope string_scope.
Local Open Scope Z_scope.
Local Open Scope list_scope.

(** ** JSON values, as [json.loads] hands them to the framework

    [JDict] holds the items of a Python dict, so its keys are distinct.
    Numbers are integers; no schema of the repository has a float field. *)

#[warnings="-register-all"] Inductive json : Type :=
| JNull
| JBool (b : bool)
| JInt (n : Z)
| JStr (s : string)
| JList (l : list json)
| JDict (items : list (string * json)).

(** Lookup in the items of a Python dict. *)
Fixpoint dict_get {A : Type} (k : string) (items : list (string * A)) : option A :=
  match items with
  | [] => None
  | (k', v) :: rest => if String.eqb k k' then Some v else dict_get k rest
  end.

(** The value of a query parameter declared as one [str]: when the key is
    repeated, the last pair counts. *)
Definition query_get (k : string) (q : list (string * string)) : option string :=
  dict_get k (rev q).

(** [Field(..., min_length=1)] on a [str]. *)
Definition min_length_1 (s : string) : bool := (1 <=? String.length s)%nat.

(** Truth value of a [str | None] in an [if]. *)
Definition truthy (o : option string) : bool :=
  match o with
  | None => false
  | Some s => negb (String.eqb s "")
  end.

(** ** app/core/config.py *)

Module Settings.
Record t : Type := mk {
  DATABASE_URL : string;
  APP_NAME : string;
  APP_DESC : string;
  APP_VERSION : string;
  ENV_ : option string;
  CORS_ORIGINS : option string
}.
End Settings.

Section Config.

(** The process environment (variables and the [.env] file), and the
    constructor [Settings()] that reads it. *)
Variable environ : Type.
Variable Settings_init : environ -> Settings.t.

(** [get_settings] under [lru_cache]: the cache is empty until the first call
    and then holds the instance that call built. The result is the instance
    returned and the cache after the call. *)
Definition get_settings (cache : option Settings.t) (env : environ)
  : Settings.t * option Settings.t :=
  match cache with
  | Some s => (s, cache)
  | None => (Settings_init env, Some (Settings_init env))
  end.

(** Successive calls, each in the environment of its moment. *)
Fixpoint get_settings_calls (cache : option Settings.t) (envs : list environ)
  : list Settings.t :=
  match envs with
  | [] => []
  | env :: rest =>
      fst (get_settings cache env)
        :: get_settings_calls (snd (get_settings cache env)) rest
  end.

End Config.

(** ** app/ticket/models.py *)

Module Ticket.
(** An instance of the mapped class. Every attribute of a Python instance can
    hold [None]; the column constraints are checked when the session flushes. *)
Record t : Type := mk {
  id : option Z;
  title : option string;
  description : option string;
  status : option string
}.

(** [setattr(obj, field, value)] for the string columns the schemas name. *)
Definition setattr (o : t) (field : string) (value : option string) : t :=
  if String.eqb field "title" then mk (id o) value (description o) (status o)
  else if String.eqb field "description" then mk (id o) (title o) value (status o)
  else if String.eqb field "status" then mk (id o) (title o) (description o) value
  else o.

(** The constructor called with keyword arguments: attributes not named stay
    [None] until the flush. *)
Definition new (kwargs : list (string * option string)) : t :=
  fold_left (fun o kv => setattr o (fst kv) (snd kv)) kwargs (mk None None None None).

(** [Ticket.id == ticket_id] *)
Definition has_id (ticket_id : Z) (o : t) : bool :=
  match id o with
  | Some i => Z.eqb i ticket_id
  | None => false
  end.

(** [nullable=False] on [title] and [description]; [id] is the primary key. *)
Definition not_null_ok (o : t) : bool :=
  match title o, description o with
  | Some _, Some _ => true
  | _, _ => false
  end.
End Ticket.

(** ** app/ticket/schemas.py *)

Module TicketCreate.
Record t : Type := mk { title : string; description : string }.

Definition validate_str_min1 (v : option json) : option string :=
  match v with
  | Some (JStr s) => if min_length_1 s then Some s else None
  | _ => None
  end.

(** Validation of a request body; keys that are not fields are ignored. *)
Definition validate (body : json) : option t :=
  match body with
  | JDict items =>
      match validate_str_min1 (dict_get "title" items),
            validate_str_min1 (dict_get "description" items) with
      | Some ti, Some de => Some (mk ti de)
      | _, _ => None
      end
  | _ => None
  end.

Definition model_dump (p : t) : list (string * option string) :=
  [("title", Some (title p)); ("description", Some (description p))].
End TicketCreate.

Module TicketUpdate.
(** A field is unset ([None]), set to [None] ([Some None]) or set to a
    string ([Some (Some s)]). *)
Record t : Type := mk {
  title : option (option string);
  description : option (option string);
  status : option (option string)
}.

(** One [str | None = None] field of the body: [None] when the value has
    another type. *)
Definition validate_opt_str (v : option json) : option (option (option string)) :=
  match v with
  | None => Some None
  | Some JNull => Some (Some None)
  | Some (JStr s) => Some (Some (Some s))
  | Some _ => None
  end.

Definition validate (body : json) : option t :=
  match body with
  | JDict items =>
      match validate_opt_str (dict_get "title" items),
            validate_opt_str (dict_get "description" items),
            validate_opt_str (dict_get "status" items) with
      | Some ti, Some de, Some st => Some (mk ti de st)
      | _, _, _ => None
      end
  | _ => None
  end.

Definition dump_field (name : string) (f : option (option string))
  : list (string * option string) :=
  match f with
  | None => []
  | Some v => [(name, v)]
  end.

(** [payload.model_dump(exclude_unset=True).items()] *)
Definition model_dump_exclude_unset (p : t) : list (string * option string) :=
  dump_field "title" (title p) ++ dump_field "description" (description p)
    ++ dump_field "status" (status p).
End TicketUpdate.

Module TicketOut.
Record t : Type := mk {
  title : string;
  description : string;
  id : Z;
  status : string
}.

(** Validation of a returned instance ([from_attributes]); the [min_length]
    of [TicketBase] is inherited. *)
Definition validate (o : Ticket.t) : option t :=
  match Ticket.title o, Ticket.description o, Ticket.id o, Ticket.status o with
  | Some ti, Some de, Some i, Some st =>
      if min_length_1 ti && min_length_1 de then Some (mk ti de i st) else None
  | _, _, _, _ => None
  end.

Fixpoint validate_list (l : list Ticket.t) : option (list t) :=
  match l with
  | [] => Some []
  | o :: rest =>
      match validate o, validate_list rest with
      | Some x, Some xs => Some (x :: xs)
      | _, _ => None
      end
  end.

Definition to_json (x : t) : json :=
  JDict [("title", JStr (title x)); ("description", JStr (description x));
         ("id", JInt (id x)); ("status", JStr (status x))].
End TicketOut.

(** ** The session: committed rows of [tickets], and exceptions *)

Definition table : Type := list Ticket.t.

Inductive exn : Type :=
| HTTPException (status_code : Z) (detail : string)
| IntegrityError
| InvalidRequestError
| RequestValidationError
| ResponseValidationError.

Inductive outcome (A : Type) : Type :=
| Return (a : A)
| Raise (e : exn).
Arguments Return {A} a.
Arguments Raise {A} e.

(** A computation on the session: its outcome and the rows committed when it
    ends (a raised exception closes the session, which rolls back whatever
    was not committed). *)
Definition DB (A : Type) : Type := table -> outcome A * table.

Definition ret {A : Type} (a : A) : DB A := fun db => (Return a, db).

Definition raise {A : Type} (e : exn) : DB A := fun db => (Raise e, db).

Definition bind {A B : Type} (c : DB A) (k : A -> DB B) : DB B :=
  fun db =>
    match c db with
    | (Return a, db') => k a db'
    | (Raise e, db') => (Raise e, db')
    end.

Declare Scope db_scope.
Delimit Scope db_scope with db.
Notation "x <- c ;; k" := (bind c (fun x => k))
  (at level 61, c at next level, right associativity) : db_scope.
Notation "c ;;; k" := (bind c (fun _ => k))
  (at level 61, right associativity) : db_scope.
Local Open Scope db_scope.

(** The largest key the store holds, and the integers it can be asked for. *)
Definition largest_key : Z := 9223372036854775807.

Definition in_store_range (i : Z) : bool :=
  (- largest_key - 1 <=? i) && (i <=? largest_key).

(** Largest primary key in use. *)
Fixpoint max_rowid (db : table) : option Z :=
  match db with
  | [] => None
  | r :: rest =>
      match Ticket.id r, max_rowid rest with
      | Some i, Some m => Some (Z.max i m)
      | Some i, None => Some i
      | None, m => m
      end
  end.

(** The key an INSERT without an id gets in the default store
    ([sqlite:///./tickets.db], an integer primary key without AUTOINCREMENT):
    one more than the largest in use, 1 in an empty table. This is the store's
    rule while the largest key in use is below [largest_key]; at that key the
    store draws an unused key at random, which this function does not model.
    Statements that depend on which key is assigned assume [keys_below]. *)
Definition next_rowid (db : table) : Z :=
  match max_rowid db with
  | None => 1
  | Some m => m + 1
  end.

(** [db.query(Ticket).all()] *)
Definition query_all : DB (list Ticket.t) := fun db => (Return db, db).

(** [db.query(Ticket).filter(Ticket.id == ticket_id).first()], for a
    [ticket_id] the store can be asked for. The driver refuses an integer
    outside the store's 64-bit keys ([in_store_range]) with an error before
    the query runs; that case is not modelled here, and statements about ids
    that are not found assume [in_store_range]. *)
Definition query_first_by_id (ticket_id : Z) : DB (option Ticket.t) :=
  fun db => (Return (find (Ticket.has_id ticket_id) db), db).

(** [db.add(obj); db.commit()]: the INSERT. The column default fills a
    [status] left at [None]; the result is the primary key of the new row. *)
Definition add_commit (o : Ticket.t) : DB Z :=
  fun db =>
    if Ticket.not_null_ok o then
      match Ticket.id o with
      | Some i =>
          if existsb (Ticket.has_id i) db then (Raise IntegrityError, db)
          else (Return i, db ++ [Ticket.mk (Some i) (Ticket.title o) (Ticket.description o)
                                    (match Ticket.status o with
                                     | None => Some "open"
                                     | st => st
                                     end)])
      | None =>
          let i := next_rowid db in
          (Return i, db ++ [Ticket.mk (Some i) (Ticket.title o) (Ticket.description o)
                              (match Ticket.status o with
                               | None => Some "open"
                               | st => st
                               end)])
      end
    else (Raise IntegrityError, db).

(** [db.commit()] with the persistent instance [o] modified: the UPDATE of
    the row with its primary key. *)
Definition update_commit (o : Ticket.t) : DB unit :=
  fun db =>
    if Ticket.not_null_ok o then
      (Return tt,
       map (fun r => match Ticket.id o with
                     | Some i => if Ticket.has_id i r then o else r
                     | None => r
                     end) db)
    else (Raise IntegrityError, db).

(** [db.delete(obj); db.commit()]: the DELETE of the row with its primary key. *)
Definition delete_commit (o : Ticket.t) : DB unit :=
  fun db =>
    (Return tt,
     filter (fun r => match Ticket.id o with
                      | Some i => negb (Ticket.has_id i r)
                      | None => true
                      end) db).

(** [db.refresh(obj)]: the attributes are read again from the row. *)
Definition refresh (pk : option Z) : DB Ticket.t :=
  fun db =>
    match pk with
    | Some i =>
        match find (Ticket.has_id i) db with
        | Some r => (Return r, db)
        | None => (Raise InvalidRequestError, db)
        end
    | None => (Raise InvalidRequestError, db)
    end.

(** ** app/ticket/services.py *)

Module services.

Definition get_all_tickets : DB (list Ticket.t) := query_all.

Definition get_ticket (ticket_id : Z) : DB (option Ticket.t) :=
  query_first_by_id ticket_id.

Definition create_ticket (payload : TicketCreate.t) : DB Ticket.t :=
  let db_ticket := Ticket.new (TicketCreate.model_dump payload) in
  pk <- add_commit db_ticket ;;
  refresh (Some pk).

Definition update_ticket (ticket_id : Z) (payload : TicketUpdate.t)
  : DB (option Ticket.t) :=
  db_ticket <- get_ticket ticket_id ;;
  match db_ticket with
  | None => ret None
  | Some o =>
      let o' := fold_left (fun o kv => Ticket.setattr o (fst kv) (snd kv))
                  (TicketUpdate.model_dump_exclude_unset payload) o in
      update_commit o' ;;;
      r <- refresh (Ticket.id o') ;;
      ret (Some r)
  end.

Definition delete_ticket (ticket_id : Z) : DB (option Ticket.t) :=
  db_ticket <- get_ticket ticket_id ;;
  match db_ticket with
  | None => ret None
  | Some o =>
      delete_commit o ;;;
      ret (Some o)
  end.

End services.

(** ** app/ticket/routes.py: the handler functions *)

Module routes.

Definition not_found : exn := HTTPException 404 "Ticket not found".

Definition papo (settings : Settings.t) : json :=
  JDict [("message", JStr "Hello from /test route!");
         ("secret_key", match Settings.ENV_ settings with
                        | Some s => JStr s
                        | None => JNull
                        end)].

Definition create (ticket : TicketCreate.t) : DB Ticket.t :=
  services.create_ticket ticket.

Definition list_all (status : option string) : DB (list Ticket.t) :=
  items <- services.get_all_tickets ;;
  let items :=
    if truthy status
    then filter (fun o => match Ticket.status o, status with
                          | Some a, Some b => String.eqb a b
                          | None, None => true
                          | _, _ => false
                          end) items
    else items in
  ret items.

Definition get (ticket_id : Z) : DB Ticket.t :=
  ticket <- services.get_ticket ticket_id ;;
  match ticket with
  | None => raise not_found
  | Some o => ret o
  end.

Definition update (ticket_id : Z) (ticket : TicketUpdate.t) : DB Ticket.t :=
  updated <- services.update_ticket ticket_id ticket ;;
  match updated with
  | None => raise not_found
  | Some o => ret o
  end.

Definition delete (ticket_id : Z) : DB Ticket.t :=
  deleted <- services.delete_ticket ticket_id ;;
  match deleted with
  | None => raise not_found
  | Some o => ret o
  end.

End routes.

(** ** The framework around the handlers: responses and validation *)

Inductive Content : Type :=
| Json (j : json)
| ValidationErrors
| PlainText (s : string).

Record Response : Type := mkResponse { status_code : Z; content : Content }.

(** The exception handlers: an [HTTPException] carries its status and detail,
    a request body that fails validation is a 422, anything else a 500. *)
Definition exception_response (e : exn) : Response :=
  match e with
  | HTTPException code detail => mkResponse code (Json (JDict [("detail", JStr detail)]))
  | RequestValidationError => mkResponse 422 ValidationErrors
  | _ => mkResponse 500 (PlainText "Internal Server Error")
  end.

(** [response_model=TicketOut] *)
Definition serialize_ticket (code : Z) (r : outcome Ticket.t) : Response :=
  match r with
  | Raise e => exception_response e
  | Return o =>
      match TicketOut.validate o with
      | Some x => mkResponse code (Json (TicketOut.to_json x))
      | None => exception_response ResponseValidationError
      end
  end.

(** [response_model=list[TicketOut]] *)
Definition serialize_tickets (code : Z) (r : outcome (list Ticket.t)) : Response :=
  match r with
  | Raise e => exception_response e
  | Return l =>
      match TicketOut.validate_list l with
      | Some xs => mkResponse code (Json (JList (map TicketOut.to_json xs)))
      | None => exception_response ResponseValidationError
      end
  end.

Definition HTTP : Type := table -> Response * table.

Definition respond {A : Type} (ser : outcome A -> Response) (c : DB A) : HTTP :=
  fun db => let (r, db') := c db in (ser r, db').

Definition unprocessable : HTTP :=
  fun db => (exception_response RequestValidationError, db).

(** The path operations, as the decorators of routes.py and main.py declare
    them. *)
Module app.

Definition GET_papo (settings : Settings.t) : HTTP :=
  fun db => (mkResponse 200 (Json (routes.papo settings)), db).

Definition POST_tickets (body : option json) : HTTP :=
  match body with
  | Some b =>
      match TicketCreate.validate b with
      | Some ticket => respond (serialize_ticket 201) (routes.create ticket)
      | None => unprocessable
      end
  | None => unprocessable
  end.

Definition GET_tickets (status : option string) : HTTP :=
  respond (serialize_tickets 200) (routes.list_all status).

Definition GET_ticket (ticket_id : Z) : HTTP :=
  respond (serialize_ticket 200) (routes.get ticket_id).

Definition PUT_ticket (ticket_id : Z) (body : option json) : HTTP :=
  match body with
  | Some b =>
      match TicketUpdate.validate b with
      | Some ticket => respond (serialize_ticket 200) (routes.update ticket_id ticket)
      | None => unprocessable
      end
  | None => unprocessable
  end.

Definition DELETE_ticket (ticket_id : Z) : HTTP :=
  respond (serialize_ticket 200) (routes.delete ticket_id).

Definition health : HTTP :=
  fun db => (mkResponse 200 (Json (JDict [("status", JStr "ok")])), db).

End app.

(** ** Routing *)

(** The methods for which the repository declares a route. *)
Inductive Method : Type := GET | POST | PUT | DELETE.

Definition Method_eqb (a b : Method) : bool :=
  match a, b with
  | GET, GET | POST, POST | PUT, PUT | DELETE, DELETE => true
  | _, _ => false
  end.

(** A request with one of the four methods, on a path in the form a route
    declares it: [["tickets"]] is [/tickets/], [["tickets"; s]] is
    [/tickets/s], [["health"]] is [/health]. The query string is given by its
    decoded pairs, in order. Other methods, and paths that differ from a
    declared one by a final slash, are the business of [receive]. *)
Record Request : Type := mkRequest {
  method : Method;
  path : list string;
  query : list (string * string);
  body : option json
}.

Inductive Endpoint : Type :=
| ep_papo | ep_create | ep_list_all | ep_get | ep_update | ep_delete | ep_health.

Inductive Segment : Type :=
| Lit (s : string)
| Param.

(** The routes in the order they are registered: the ticket router
    (prefix [/tickets]) is included before [/health] is declared. *)
Definition route_table : list (Method * list Segment * Endpoint) :=
  [ (GET, [Lit "tickets"; Lit "papo"], ep_papo);
    (POST, [Lit "tickets"], ep_create);
    (GET, [Lit "tickets"], ep_list_all);
    (GET, [Lit "tickets"; Param], ep_get);
    (PUT, [Lit "tickets"; Param], ep_update);
    (DELETE, [Lit "tickets"; Param], ep_delete);
    (GET, [Lit "health"], ep_health) ].

(** Matching a path against a pattern gives the captured parameter, if any. A
    path parameter captures one non-empty segment. *)
Fixpoint match_path (pat : list Segment) (p : list string) (cap : option string)
  : option (option string) :=
  match pat, p with
  | [], [] => Some cap
  | Lit s :: pat', x :: p' => if String.eqb s x then match_path pat' p' cap else None
  | Param :: pat', x :: p' => if String.eqb x "" then None else match_path pat' p' (Some x)
  | _, _ => None
  end.

Inductive Match : Type :=
| Full (e : Endpoint) (param : option string)
| Partial
| NoMatch.

(** The first route whose path and method match wins; when only paths match,
    the method is not allowed. *)
Fixpoint dispatch (rs : list (Method * list Segment * Endpoint)) (m : Method)
    (p : list string) : Match :=
  match rs with
  | [] => NoMatch
  | (m', pat, e) :: rest =>
      match match_path pat p None with
      | Some cap =>
          if Method_eqb m m' then Full e cap
          else match dispatch rest m p with
               | Full e' cap' => Full e' cap'
               | _ => Partial
               end
      | None => dispatch rest m p
      end
  end.

Section Router.

(** Validation of a path segment as an [int] path parameter. *)
Variable int_of_segment : string -> option Z.

Definition with_ticket_id (param : option string) (k : Z -> HTTP) : HTTP :=
  match param with
  | Some s =>
      match int_of_segment s with
      | Some i => k i
      | None => unprocessable
      end
  | None => unprocessable
  end.

Definition run_endpoint (settings : Settings.t) (e : Endpoint) (param : option string)
    (req : Request) : HTTP :=
  match e with
  | ep_papo => app.GET_papo settings
  | ep_create => app.POST_tickets (body req)
  | ep_list_all => app.GET_tickets (query_get "status" (query req))
  | ep_get => with_ticket_id param app.GET_ticket
  | ep_update => with_ticket_id param (fun i => app.PUT_ticket i (body req))
  | ep_delete => with_ticket_id param app.DELETE_ticket
  | ep_health => app.health
  end.

(** [None]: the request reaches no route declared in the repository. *)
Definition serve (settings : Settings.t) (req : Request) (db : table)
  : option (Response * table) :=
  match dispatch route_table (method req) (path req) with
  | Full e param => Some (run_endpoint settings e param req db)
  | Partial =>
      Some (exception_response (HTTPException 405 "Method Not Allowed"), db)
  | NoMatch => None
  end.

End Router.

(** ** The application as a client calls it: any method, any path *)

(** The method of a request by its name, when a route is declared for it. *)
Definition method_of_name (name : string) : option Method :=
  if String.eqb name "GET" then Some GET
  else if String.eqb name "POST" then Some POST
  else if String.eqb name "PUT" then Some PUT
  else if String.eqb name "DELETE" then Some DELETE
  else None.

(** A path as it is sent is given by its pieces between slashes, after the
    first slash: [/tickets/] is [["tickets"; ""]], [/tickets] is
    [["tickets"]], [/tickets/7] is [["tickets"; "7"]] and [/] is [[""]].
    [declared_path] recognises the paths of the decorators ([/tickets/papo],
    [/tickets/], [/tickets/{ticket_id}] under the prefix, and [/health]) and
    gives the path in the form [Request] holds it. *)
Definition declared_path (raw : list string) : option (list string) :=
  match raw with
  | [a] => if String.eqb a "health" then Some ["health"] else None
  | [a; b] =>
      if String.eqb a "tickets"
      then if String.eqb b "" then Some ["tickets"] else Some ["tickets"; b]
      else None
  | _ => None
  end.

(** Dropping the empty pieces at the head of a reversed path: the slashes at
    the end of the path. *)
Fixpoint drop_empty (pieces : list string) : list string :=
  match pieces with
  | [] => []
  | s :: rest => if String.eqb s "" then drop_empty rest else pieces
  end.

(** The path the router tries when no route matches: without its final
    slashes when it ends in one, with a final slash otherwise. *)
Definition toggle_slash (raw : list string) : list string :=
  match rev raw with
  | [] => raw ++ [""]
  | s :: rest => if String.eqb s "" then rev (drop_empty rest) else raw ++ [""]
  end.

(** What the client gets: a response, or a redirect (307) to another path. *)
Inductive Answer : Type :=
| Served (r : Response)
| Redirected (location : list string).

(** The router on a request as it is sent. A declared path is served, with
    405 for a method it has no route for; a path that is not declared, is not
    [/], and is declared once its final slash is toggled, is redirected;
    [None]: the request reaches no route declared in the repository. *)
Definition receive (int_of_segment : string -> option Z) (settings : Settings.t)
    (name : string) (raw : list string) (q : list (string * string))
    (b : option json) (db : table) : option (Answer * table) :=
  match declared_path raw with
  | Some p =>
      match method_of_name name with
      | Some m =>
          match serve int_of_segment settings (mkRequest m p q b) db with
          | Some (r, db') => Some (Served r, db')
          | None => None
          end
      | None =>
          Some (Served (exception_response (HTTPException 405 "Method Not Allowed")), db)
      end
  | None =>
      match raw with
      | [s] =>
          if String.eqb s "" then None
          else match declared_path (toggle_slash raw) with
               | Some _ => Some (Redirected (toggle_slash raw), db)
               | None => None
               end
      | _ =>
          match declared_path (toggle_slash raw) with
          | Some _ => Some (Redirected (toggle_slash raw), db)
          | None => None
          end
      end
  end.

(** ** Vocabulary of the statements *)

(** The path, as sent, is one a route declares, and no route on it has the
    method: the list and create path with a method other than GET and POST,
    the path of one ticket (or of the diagnostic route) with a method other
    than GET, PUT and DELETE, the health path with a method other than GET. *)
Definition no_route_for (name : string) (raw : list string) : Prop :=
  (raw = ["tickets"; ""] /\ name <> "GET" /\ name <> "POST") \/
  (exists s, raw = ["tickets"; s] /\ s <> "" /\
             name <> "GET" /\ name <> "PUT" /\ name <> "DELETE") \/
  (raw = ["health"] /\ name <> "GET").

(** Every key of the table is below the bound. *)
Definition keys_below (bound : Z) (db : table) : Prop :=
  forall r k, In r db -> Ticket.id r = Some k -> k < bound.

(** The effect of the [setattr] loop of [update_ticket]: the fields the payload
    sets replace the attributes, the others stay. *)
Definition apply_patch (T : Ticket.t) (U : TicketUpdate.t) : Ticket.t :=
  Ticket.mk (Ticket.id T)
    (match TicketUpdate.title U with Some v => v | None => Ticket.title T end)
    (match TicketUpdate.description U with Some v => v | None => Ticket.description T end)
    (match TicketUpdate.status U with Some v => v | None => Ticket.status T end).

(** The row an accepted create payload becomes. *)
Definition created_row (db : table) (I : TicketCreate.t) : Ticket.t :=
  Ticket.mk (Some (next_rowid db)) (Some (TicketCreate.title I))
    (Some (TicketCreate.description I)) (Some "open").

(** The stored status of the row is the string [v]. *)
Definition status_is (v : string) (r : Ticket.t) : bool :=
  match Ticket.status r with
  | Some a => String.eqb a v
  | None => false
  end.

(** No row of the table has the id. *)
Definition absent (ticket_id : Z) (db : table) : Prop :=
  forall r, In r db -> Ticket.id r <> Some ticket_id.

(** The constraints the table declares on a row: a primary key, and
    [nullable=False] on [title] and [description]. *)
Definition row_ok (r : Ticket.t) : bool :=
  match Ticket.id r with
  | Some _ => Ticket.not_null_ok r
  | None => false
  end.

Definition table_ok (db : table) : Prop := Forall (fun r => row_ok r = true) db.

(** The response of the three [raise HTTPException(status_code=404, ...)]. *)
Definition not_found_response : Response :=
  mkResponse 404 (Json (JDict [("detail", JStr "Ticket not found")])).

Definition ticket_response (code : Z) (x : TicketOut.t) : Response :=
  mkResponse code (Json (TicketOut.to_json x)).

Definition server_error : Response :=
  mkResponse 500 (PlainText "Internal Server Error").

(** The rows committed after a sequence of requests, served in order. *)
Fixpoint serve_all (int_of_segment : string -> option Z) (settings : Settings.t)
    (reqs : list Request) (db : table) : table :=
  match reqs with
  | [] => db
  | req :: rest =>
      match serve int_of_segment settings req db with
      | Some (_, db') => serve_all int_of_segment settings rest db'
      | None => serve_all int_of_segment settings rest db
      end
  end.

(** The primary keys of the rows are pairwise distinct. *)
Definition keys_distinct (db : table) : Prop := NoDup (map Ticket.id db).

(** A JSON value that a [str | None] field of [TicketUpdate] accepts. *)
Definition str_or_null (v : json) : bool :=
  match v with
  | JNull | JStr _ => true
  | _ => false
  end.

(** The field names of [TicketUpdate]. *)
Definition update_fields : list string := ["title"; "description"; "status"].

(** What [TicketUpdate] makes of the value bound to one of its keys. *)
Definition sent_value (v : option json) : option (option string) :=
  match v with
  | Some JNull => Some None
  | Some (JStr s) => Some (Some s)
  | _ => None
  end.


(** The route table resolved: what a method and a path are dispatched to. *)
Definition resolve (m : Method) (p : list string) : Match :=
  match p with
  | [a] =>
      if String.eqb "tickets" a then
        match m with
        | POST => Full ep_create None
        | GET => Full ep_list_all None
        | _ => Partial
        end
      else if String.eqb "health" a then
        match m with
        | GET => Full ep_health None
        | _ => Partial
        end
      else NoMatch
  | [a; b] =>
      if String.eqb "tickets" a then
        if String.eqb b "" then NoMatch
        else match m with
             | GET => if String.eqb "papo" b then Full ep_papo None
                      else Full ep_get (Some b)
             | PUT => Full ep_update (Some b)
             | DELETE => Full ep_delete (Some b)
             | POST => Partial
             end
      else NoMatch
  | _ => NoMatch
  end.

(** Every row of the table passes the output schema. *)
Definition presentable (db : table) : Prop :=
  Forall (fun r => TicketOut.validate r <> None) db.

(** An update payload that sets no field to null and neither [title] nor
    [description] to the empty string. *)
Definition benign_update (U : TicketUpdate.t) : bool :=
  match TicketUpdate.title U with
  | Some None => false
  | Some (Some s) => min_length_1 s
  | None => true
  end &&
  match TicketUpdate.description U with
  | Some None => false
  | Some (Some s) => min_length_1 s
  | None => true
  end &&
  match TicketUpdate.status U with
  | Some None => false
  | _ => true
  end.

(** A request that is not a PUT carrying a payload that is not benign. *)
Definition benign (req : Request) : bool :=
  match method req, body req with
  | PUT, Some b =>
      match TicketUpdate.validate b with
      | Some U => benign_update U
      | None => true
      end
  | _, _ => true
  end.

(** One primary key is below another; a null key is below nothing. *)
Definition key_lt (a b : option Z) : Prop :=
  match a, b with
  | Some x, Some y => x < y
  | _, _ => False
  end.

(** The rows are in strictly increasing order of primary key. *)
Definition keys_increasing (db : table) : Prop :=
  StronglySorted key_lt (map Ticket.id db).

(** * Facts about the table primitives *)

Lemma has_id_true (i : Z) (r : Ticket.t) :
  Ticket.has_id i r = true <-> Ticket.id r = Some i.
Proof.
  unfold Ticket.has_id. destruct (Ticket.id r) as [j|]; split; intro H;
    try discriminate.
  - apply Z.eqb_eq in H. now subst.
  - injection H as ->. apply Z.eqb_refl.
Qed.

Lemma find_has_id (i : Z) (db : table) (r : Ticket.t) :
  find (Ticket.has_id i) db = Some r -> In r db /\ Ticket.id r = Some i.
Proof.
  intro H. apply find_some in H. destruct H as [Hin Hid].
  split; [assumption | now apply has_id_true].
Qed.

Lemma find_snoc {A : Type} (f : A -> bool) (l : list A) (x : A) :
  find f (l ++ [x]) =
  match find f l with
  | Some y => Some y
  | None => if f x then Some x else None
  end.
Proof.
  induction l as [|a l IH]; simpl.
  - reflexivity.
  - destruct (f a); [reflexivity | exact IH].
Qed.

Lemma find_after_update (i : Z) (o r0 : Ticket.t) (db : table) :
  find (Ticket.has_id i) db = Some r0 ->
  Ticket.id o = Some i ->
  find (Ticket.has_id i) (map (fun r => if Ticket.has_id i r then o else r) db) = Some o.
Proof.
  intros Hfind Hid. apply has_id_true in Hid.
  induction db as [|a db IH]; simpl in *; [discriminate|].
  destruct (Ticket.has_id i a) eqn:Ha.
  - now rewrite Hid.
  - rewrite Ha. now apply IH.
Qed.

Lemma find_after_delete (i : Z) (db : table) :
  find (Ticket.has_id i) (filter (fun r => negb (Ticket.has_id i r)) db) = None.
Proof.
  induction db as [|a db IH]; simpl; [reflexivity|].
  destruct (Ticket.has_id i a) eqn:Ha; simpl; [exact IH|].
  now rewrite Ha.
Qed.

Lemma max_rowid_bound (db : table) (r : Ticket.t) (k : Z) :
  In r db -> Ticket.id r = Some k ->
  exists m, max_rowid db = Some m /\ k <= m.
Proof.
  induction db as [|a db IH]; simpl; [contradiction|].
  intros [-> | Hin] Hk.
  - rewrite Hk. destruct (max_rowid db) as [m|]; eexists; split;
      try reflexivity; lia.
  - destruct (IH Hin Hk) as [m [Hm Hle]]. rewrite Hm.
    destruct (Ticket.id a) as [j|]; eexists; split; try reflexivity; lia.
Qed.

Lemma find_next_rowid (db : table) :
  find (Ticket.has_id (next_rowid db)) db = None.
Proof.
  destruct (find (Ticket.has_id (next_rowid db)) db) as [r|] eqn:Hf;
    [exfalso | reflexivity].
  apply find_has_id in Hf. destruct Hf as [Hin Hid].
  destruct (max_rowid_bound db r _ Hin Hid) as [m [Hm Hle]].
  unfold next_rowid in Hle. rewrite Hm in Hle. lia.
Qed.

Lemma min_length_1_nonempty (s : string) :
  min_length_1 s = true <-> s <> "".
Proof.
  destruct s; simpl; split; intro H; try reflexivity; try discriminate.
  now contradiction H.
Qed.

(** * The service functions, case by case *)

Lemma setattr_loop_patch (T : Ticket.t) (U : TicketUpdate.t) :
  fold_left (fun o kv => Ticket.setattr o (fst kv) (snd kv))
    (TicketUpdate.model_dump_exclude_unset U) T = apply_patch T U.
Proof.
  destruct T as [i ti de st], U as [[a|] [b|] [c|]]; reflexivity.
Qed.

Lemma create_ticket_run (db : table) (I : TicketCreate.t) :
  services.create_ticket I db = (Return (created_row db I), db ++ [created_row db I]).
Proof.
  unfold services.create_ticket, bind, add_commit, refresh. simpl.
  rewrite find_snoc, find_next_rowid.
  unfold Ticket.has_id at 1. simpl. now rewrite Z.eqb_refl.
Qed.

Lemma update_ticket_absent (db : table) (i : Z) (U : TicketUpdate.t) :
  find (Ticket.has_id i) db = None ->
  services.update_ticket i U db = (Return None, db).
Proof.
  intro H. unfold services.update_ticket, services.get_ticket, query_first_by_id, bind.
  now rewrite H.
Qed.

Lemma update_ticket_found (db : table) (i : Z) (T : Ticket.t) (U : TicketUpdate.t) :
  find (Ticket.has_id i) db = Some T ->
  Ticket.not_null_ok (apply_patch T U) = true ->
  services.update_ticket i U db =
  (Return (Some (apply_patch T U)),
   map (fun r => if Ticket.has_id i r then apply_patch T U else r) db).
Proof.
  intros Hfind Hnn.
  destruct (find_has_id _ _ _ Hfind) as [_ Hid].
  unfold services.update_ticket, services.get_ticket, query_first_by_id, bind.
  rewrite Hfind, setattr_loop_patch.
  unfold update_commit, refresh. rewrite Hnn. simpl Ticket.id. rewrite Hid.
  rewrite (find_after_update i (apply_patch T U) T db Hfind) by exact Hid.
  reflexivity.
Qed.

Lemma update_ticket_integrity (db : table) (i : Z) (T : Ticket.t) (U : TicketUpdate.t) :
  find (Ticket.has_id i) db = Some T ->
  Ticket.not_null_ok (apply_patch T U) = false ->
  services.update_ticket i U db = (Raise IntegrityError, db).
Proof.
  intros Hfind Hnn.
  unfold services.update_ticket, services.get_ticket, query_first_by_id, bind.
  rewrite Hfind, setattr_loop_patch. unfold update_commit. now rewrite Hnn.
Qed.

Lemma delete_ticket_absent (db : table) (i : Z) :
  find (Ticket.has_id i) db = None ->
  services.delete_ticket i db = (Return None, db).
Proof.
  intro H. unfold services.delete_ticket, services.get_ticket, query_first_by_id, bind.
  now rewrite H.
Qed.

Lemma delete_ticket_found (db : table) (i : Z) (T : Ticket.t) :
  find (Ticket.has_id i) db = Some T ->
  services.delete_ticket i db =
  (Return (Some T), filter (fun r => negb (Ticket.has_id i r)) db).
Proof.
  intro Hfind. destruct (find_has_id _ _ _ Hfind) as [_ Hid].
  unfold services.delete_ticket, services.get_ticket, query_first_by_id, bind.
  rewrite Hfind. unfold delete_commit, ret. now rewrite Hid.
Qed.

Lemma absent_find (i : Z) (db : table) :
  absent i db <-> find (Ticket.has_id i) db = None.
Proof.
  split.
  - intro Habs. destruct (find (Ticket.has_id i) db) as [r|] eqn:Hf; [|reflexivity].
    apply find_has_id in Hf. destruct Hf as [Hin Hid]. now destruct (Habs r Hin).
  - intros Hf r Hin Hid. apply has_id_true in Hid.
    pose proof (find_none _ _ Hf r Hin) as Hr. congruence.
Qed.

Lemma deleted_is_absent (i : Z) (db0 : table) :
  absent i (snd (services.delete_ticket i db0)).
Proof.
  apply absent_find.
  destruct (find (Ticket.has_id i) db0) as [T|] eqn:Hf.
  - rewrite (delete_ticket_found db0 i T Hf). simpl. apply find_after_delete.
  - rewrite (delete_ticket_absent db0 i Hf). exact Hf.
Qed.

Lemma table_ok_row (db : table) (i : Z) (T : Ticket.t) :
  table_ok db -> find (Ticket.has_id i) db = Some T -> Ticket.not_null_ok T = true.
Proof.
  intros Hok Hf. apply find_has_id in Hf. destruct Hf as [Hin Hid].
  unfold table_ok in Hok. rewrite Forall_forall in Hok.
  specialize (Hok T Hin). unfold row_ok in Hok. now rewrite Hid in Hok.
Qed.

Lemma validate_created_row (db : table) (I : TicketCreate.t) :
  min_length_1 (TicketCreate.title I) = true ->
  min_length_1 (TicketCreate.description I) = true ->
  TicketOut.validate (created_row db I) =
  Some (TicketOut.mk (TicketCreate.title I) (TicketCreate.description I)
          (next_rowid db) "open").
Proof.
  intros Ht Hd. unfold TicketOut.validate, created_row. simpl. now rewrite Ht, Hd.
Qed.

Lemma validate_create_fields (b : json) (I : TicketCreate.t) :
  TicketCreate.validate b = Some I ->
  min_length_1 (TicketCreate.title I) = true /\
  min_length_1 (TicketCreate.description I) = true.
Proof.
  unfold TicketCreate.validate, TicketCreate.validate_str_min1.
  destruct b as [| | | | |items]; try discriminate.
  destruct (dict_get "title" items) as [[| | |ti| |]|]; try discriminate.
  destruct (min_length_1 ti) eqn:Ht; try discriminate.
  destruct (dict_get "description" items) as [[| | |de| |]|]; try discriminate.
  destruct (min_length_1 de) eqn:Hd; try discriminate.
  intro H. injection H as <-. now split.
Qed.

(** * The claims *)

(** C1. Partial update preserves unset fields: for a ticket [T] of the store
    and an update payload that sets only [status], [update_ticket] succeeds and
    a following [get_ticket] of the same id returns a ticket with the title and
    the description of [T] and with the payload's status. *)
Theorem update_status_only_keeps_title_description :
  forall (db : table) (i : Z) (T : Ticket.t) (U : TicketUpdate.t) (v : option string),
    table_ok db ->
    services.get_ticket i db = (Return (Some T), db) ->
    TicketUpdate.title U = None ->
    TicketUpdate.description U = None ->
    TicketUpdate.status U = Some v ->
    exists (T' : Ticket.t) (db' : table),
      services.update_ticket i U db = (Return (Some T'), db') /\
      services.get_ticket i db' = (Return (Some T'), db') /\
      Ticket.id T' = Ticket.id T /\
      Ticket.title T' = Ticket.title T /\
      Ticket.description T' = Ticket.description T /\
      Ticket.status T' = v.
Proof.
  intros db i T U v Hok Hget Hti Hde Hst.
  unfold services.get_ticket, query_first_by_id in Hget.
  injection Hget as Hfind.
  assert (Hpatch : apply_patch T U =
                   Ticket.mk (Ticket.id T) (Ticket.title T) (Ticket.description T) v).
  { unfold apply_patch. now rewrite Hti, Hde, Hst. }
  assert (Hnn : Ticket.not_null_ok (apply_patch T U) = true).
  { rewrite Hpatch. exact (table_ok_row db i T Hok Hfind). }
  exists (apply_patch T U), (map (fun r => if Ticket.has_id i r then apply_patch T U else r) db).
  split; [exact (update_ticket_found db i T U Hfind Hnn)|].
  split.
  - unfold services.get_ticket, query_first_by_id.
    rewrite (find_after_update i (apply_patch T U) T db Hfind); [reflexivity|].
    rewrite Hpatch. simpl. exact (proj2 (find_has_id _ _ _ Hfind)).
  - rewrite Hpatch. simpl. repeat split.
Qed.

Lemma update_status_only_keeps_title_description_witness :
  exists (T' : Ticket.t) (db' : table),
    services.update_ticket 1 (TicketUpdate.mk None None (Some (Some "closed")))
      [Ticket.mk (Some 1) (Some "B") (Some "body") (Some "open")]
    = (Return (Some T'), db') /\
    services.get_ticket 1 db' = (Return (Some T'), db') /\
    Ticket.id T' = Some 1 /\
    Ticket.title T' = Some "B" /\
    Ticket.description T' = Some "body" /\
    Ticket.status T' = Some "closed".
Proof.
  apply (update_status_only_keeps_title_description
           [Ticket.mk (Some 1) (Some "B") (Some "body") (Some "open")] 1
           (Ticket.mk (Some 1) (Some "B") (Some "body") (Some "open"))
           (TicketUpdate.mk None None (Some (Some "closed"))) (Some "closed")).
  - repeat constructor.
  - reflexivity.
  - reflexivity.
  - reflexivity.
  - reflexivity.
Defined.

(** C2. Default status: a create request whose body has a non-empty string
    [title] and [description] is answered 201 with a ticket of status "open"
    and the next id of the table, whatever other keys (such as [status] or
    [id]) the body carries; the stored row has the same fields. *)
Theorem create_status_is_open :
  forall (db : table) (items : list (string * json)) (ti de : string),
    dict_get "title" items = Some (JStr ti) -> ti <> "" ->
    dict_get "description" items = Some (JStr de) -> de <> "" ->
    app.POST_tickets (Some (JDict items)) db =
    (ticket_response 201 (TicketOut.mk ti de (next_rowid db) "open"),
     db ++ [Ticket.mk (Some (next_rowid db)) (Some ti) (Some de) (Some "open")]).
Proof.
  intros db items ti de Hti Hne1 Hde Hne2.
  apply min_length_1_nonempty in Hne1, Hne2.
  unfold app.POST_tickets, TicketCreate.validate, TicketCreate.validate_str_min1.
  rewrite Hti, Hde, Hne1, Hne2.
  unfold respond, routes.create. rewrite create_ticket_run.
  unfold serialize_ticket. rewrite validate_created_row by assumption.
  reflexivity.
Qed.

Lemma create_status_is_open_witness :
  app.POST_tickets
    (Some (JDict [("id", JInt 99); ("status", JStr "closed");
                  ("title", JStr "T1"); ("description", JStr "D1")])) []
  = (ticket_response 201 (TicketOut.mk "T1" "D1" 1 "open"),
     [Ticket.mk (Some 1) (Some "T1") (Some "D1") (Some "open")]).
Proof.
  apply (create_status_is_open []
           [("id", JInt 99); ("status", JStr "closed");
            ("title", JStr "T1"); ("description", JStr "D1")] "T1" "D1").
  - reflexivity.
  - discriminate.
  - reflexivity.
  - discriminate.
Defined.

(** C3, as stated, fails: an id whose ticket has been deleted is assigned
    again by the next create, and get then finds a ticket under it. On the
    table holding ticket 1 alone, delete of id 1 succeeds, and after one more
    create get of id 1 returns the new ticket instead of raising the 404. *)
Lemma deleted_id_assigned_again_counterexample :
  ~ (forall (db0 db1 : table) (i : Z) (T : Ticket.t) (I : TicketCreate.t),
       services.delete_ticket i db0 = (Return (Some T), db1) ->
       routes.get i (snd (services.create_ticket I db1))
       = (Raise (HTTPException 404 "Ticket not found"),
          snd (services.create_ticket I db1))).
Proof.
  intro H.
  specialize (H [Ticket.mk (Some 1) (Some "A") (Some "A") (Some "open")] [] 1
                (Ticket.mk (Some 1) (Some "A") (Some "A") (Some "open"))
                (TicketCreate.mk "B" "B") eq_refl).
  vm_compute in H. discriminate H.
Qed.

(** C3, amended. Not found: for an id within the store's 64-bit keys that no
    row has at the time of the request (it was never assigned, or its ticket
    has just been deleted and the id not assigned again), get, update (with
    any accepted payload) and delete raise the 404 [HTTPException] with detail
    "Ticket not found", and the table is unchanged. *)
Theorem absent_id_is_not_found :
  forall (db : table) (i : Z) (b : json) (U : TicketUpdate.t),
    in_store_range i = true ->
    absent i db \/ (exists db0, db = snd (services.delete_ticket i db0)) ->
    TicketUpdate.validate b = Some U ->
    (routes.get i db = (Raise (HTTPException 404 "Ticket not found"), db) /\
     routes.update i U db = (Raise (HTTPException 404 "Ticket not found"), db) /\
     routes.delete i db = (Raise (HTTPException 404 "Ticket not found"), db)) /\
    (app.GET_ticket i db = (not_found_response, db) /\
     app.PUT_ticket i (Some b) db = (not_found_response, db) /\
     app.DELETE_ticket i db = (not_found_response, db)).
Proof.
  intros db i b U _ Habs Hval.
  assert (Hf : find (Ticket.has_id i) db = None).
  { apply absent_find. destruct Habs as [H | [db0 ->]];
      [exact H | apply deleted_is_absent]. }
  assert (Hg : routes.get i db = (Raise routes.not_found, db)).
  { unfold routes.get, services.get_ticket, query_first_by_id, bind. now rewrite Hf. }
  assert (Hu : routes.update i U db = (Raise routes.not_found, db)).
  { unfold routes.update, bind. now rewrite (update_ticket_absent db i U Hf). }
  assert (Hd : routes.delete i db = (Raise routes.not_found, db)).
  { unfold routes.delete, bind. now rewrite (delete_ticket_absent db i Hf). }
  split; [repeat split; assumption|].
  unfold app.GET_ticket, app.PUT_ticket, app.DELETE_ticket, respond.
  rewrite Hval, Hg, Hu, Hd. repeat split.
Qed.

Lemma absent_id_is_not_found_witness :
  (routes.get 9999999 [] = (Raise (HTTPException 404 "Ticket not found"), []) /\
   routes.update 9999999 (TicketUpdate.mk None None (Some (Some "closed"))) []
   = (Raise (HTTPException 404 "Ticket not found"), []) /\
   routes.delete 9999999 [] = (Raise (HTTPException 404 "Ticket not found"), [])) /\
  (app.GET_ticket 9999999 [] = (not_found_response, []) /\
   app.PUT_ticket 9999999 (Some (JDict [("status", JStr "closed")])) []
   = (not_found_response, []) /\
   app.DELETE_ticket 9999999 [] = (not_found_response, [])).
Proof.
  apply (absent_id_is_not_found [] 9999999 (JDict [("status", JStr "closed")])
           (TicketUpdate.mk None None (Some (Some "closed")))).
  - reflexivity.
  - left. intros r Hin. destruct Hin.
  - reflexivity.
Defined.

Lemma status_is_true (v : string) (r : Ticket.t) :
  status_is v r = true <-> Ticket.status r = Some v.
Proof.
  unfold status_is. destruct (Ticket.status r) as [a|]; split; intro H;
    try discriminate.
  - apply String.eqb_eq in H. now subst.
  - injection H as ->. apply String.eqb_refl.
Qed.

(** C4, as stated, fails: with the query parameter present and empty, the
    handler returns a ticket whose status is "open". *)
Lemma list_all_empty_status_counterexample :
  ~ (forall (db : table) (v : string),
       exists items : list Ticket.t,
         routes.list_all (Some v) db = (Return items, db) /\
         forall r, In r items <-> (In r db /\ Ticket.status r = Some v)).
Proof.
  intro H.
  destruct (H [Ticket.mk (Some 1) (Some "A") (Some "A") (Some "open")] "")
    as [items [Hrun Hiff]].
  vm_compute in Hrun. injection Hrun as <-.
  destruct (proj1 (Hiff (Ticket.mk (Some 1) (Some "A") (Some "A") (Some "open")))
              (or_introl eq_refl)) as [_ Hst].
  discriminate Hst.
Qed.

(** C4, amended. When the [status] query parameter is present and not the
    empty string, [list_all] returns exactly the rows whose stored status is
    that string (exact string equality), in table order; when it is absent or
    empty it returns all rows; the table is unchanged. The response is 200 with
    these tickets whenever each of them passes the output schema. *)
Theorem list_all_filters_by_status :
  forall (db : table) (status : option string),
    exists items : list Ticket.t,
      routes.list_all status db = (Return items, db) /\
      (forall v, status = Some v -> v <> "" ->
         items = filter (status_is v) db /\
         forall r, In r items <-> (In r db /\ Ticket.status r = Some v)) /\
      (status = None \/ status = Some "" -> items = db) /\
      (forall xs, TicketOut.validate_list items = Some xs ->
         app.GET_tickets status db =
         (mkResponse 200 (Json (JList (map TicketOut.to_json xs))), db)).
Proof.
  intros db status.
  unfold app.GET_tickets, respond, routes.list_all, services.get_all_tickets,
    query_all, bind, ret.
  eexists. split; [reflexivity|]. split; [|split].
  - intros v -> Hne. simpl truthy.
    destruct (String.eqb v "") eqn:He; [apply String.eqb_eq in He; contradiction|].
    simpl. split; [reflexivity|].
    intro r. rewrite filter_In.
    change (match Ticket.status r with
            | Some a => String.eqb a v
            | None => false
            end) with (status_is v r).
    now rewrite status_is_true.
  - intros [-> | ->]; reflexivity.
  - intros xs Hxs. unfold serialize_tickets. now rewrite Hxs.
Qed.

Lemma list_all_filters_by_status_witness :
  exists items : list Ticket.t,
    routes.list_all (Some "open")
      [Ticket.mk (Some 1) (Some "A") (Some "A") (Some "open");
       Ticket.mk (Some 2) (Some "B") (Some "B") (Some "closed")]
    = (Return items,
       [Ticket.mk (Some 1) (Some "A") (Some "A") (Some "open");
        Ticket.mk (Some 2) (Some "B") (Some "B") (Some "closed")]) /\
    items = [Ticket.mk (Some 1) (Some "A") (Some "A") (Some "open")].
Proof.
  destruct (list_all_filters_by_status
              [Ticket.mk (Some 1) (Some "A") (Some "A") (Some "open");
               Ticket.mk (Some 2) (Some "B") (Some "B") (Some "closed")]
              (Some "open")) as [items [Hrun [Hsel _]]].
  exists items. split; [exact Hrun|].
  destruct (Hsel "open" eq_refl) as [Heq _]; [discriminate | exact Heq].
Defined.

(** The comparison is exact: case and surrounding blanks matter. *)
Example list_all_case_sensitive :
  routes.list_all (Some "Open") [Ticket.mk (Some 1) (Some "A") (Some "A") (Some "open")]
  = (Return [], [Ticket.mk (Some 1) (Some "A") (Some "A") (Some "open")]).
Proof. reflexivity. Qed.

Example list_all_no_trimming :
  routes.list_all (Some " open") [Ticket.mk (Some 1) (Some "A") (Some "A") (Some "open")]
  = (Return [], [Ticket.mk (Some 1) (Some "A") (Some "A") (Some "open")]).
Proof. reflexivity. Qed.

(** C5. Round trip: for a body that passes the create schema, the 201 response
    carries a ticket [x], and a get of [x]'s id is answered 200 with the same
    ticket; at the service level [get_ticket] returns the instance that
    [create_ticket] returned. *)
Theorem create_then_get_round_trip :
  forall (db : table) (b : json) (I : TicketCreate.t),
    TicketCreate.validate b = Some I ->
    exists (T : Ticket.t) (x : TicketOut.t) (db' : table),
      services.create_ticket I db = (Return T, db') /\
      Ticket.id T = Some (TicketOut.id x) /\
      services.get_ticket (TicketOut.id x) db' = (Return (Some T), db') /\
      app.POST_tickets (Some b) db = (ticket_response 201 x, db') /\
      app.GET_ticket (TicketOut.id x) db' = (ticket_response 200 x, db').
Proof.
  intros db b I Hval.
  destruct (validate_create_fields b I Hval) as [Ht Hd].
  exists (created_row db I),
    (TicketOut.mk (TicketCreate.title I) (TicketCreate.description I)
       (next_rowid db) "open"),
    (db ++ [created_row db I]).
  assert (Hfind : find (Ticket.has_id (next_rowid db)) (db ++ [created_row db I])
                  = Some (created_row db I)).
  { rewrite find_snoc, find_next_rowid. unfold Ticket.has_id. simpl.
    now rewrite Z.eqb_refl. }
  split; [apply create_ticket_run|]. split; [reflexivity|].
  simpl TicketOut.id. split.
  - unfold services.get_ticket, query_first_by_id. now rewrite Hfind.
  - split.
    + unfold app.POST_tickets. rewrite Hval. unfold respond, routes.create.
      rewrite create_ticket_run. unfold serialize_ticket.
      now rewrite validate_created_row.
    + unfold app.GET_ticket, respond, routes.get, services.get_ticket,
        query_first_by_id, bind. rewrite Hfind. unfold ret, serialize_ticket.
      now rewrite validate_created_row.
Qed.

Lemma create_then_get_round_trip_witness :
  exists (T : Ticket.t) (x : TicketOut.t) (db' : table),
    services.create_ticket (TicketCreate.mk "T1" "D1")
      [Ticket.mk (Some 4) (Some "old") (Some "row") (Some "closed")]
    = (Return T, db') /\
    Ticket.id T = Some (TicketOut.id x) /\
    services.get_ticket (TicketOut.id x) db' = (Return (Some T), db') /\
    app.POST_tickets (Some (JDict [("title", JStr "T1"); ("description", JStr "D1")]))
      [Ticket.mk (Some 4) (Some "old") (Some "row") (Some "closed")]
    = (ticket_response 201 x, db') /\
    app.GET_ticket (TicketOut.id x) db' = (ticket_response 200 x, db').
Proof.
  apply (create_then_get_round_trip
           [Ticket.mk (Some 4) (Some "old") (Some "row") (Some "closed")]
           (JDict [("title", JStr "T1"); ("description", JStr "D1")])
           (TicketCreate.mk "T1" "D1")).
  reflexivity.
Defined.

(** C6. Validation boundary: a create body in which [title] or [description]
    is missing or is the empty string is answered 422 and the table is
    unchanged, so a following list gives what it gave before. *)
Theorem invalid_create_is_rejected :
  forall (db : table) (items : list (string * json)),
    dict_get "title" items = None \/ dict_get "title" items = Some (JStr "") \/
    dict_get "description" items = None \/ dict_get "description" items = Some (JStr "") ->
    app.POST_tickets (Some (JDict items)) db = (mkResponse 422 ValidationErrors, db) /\
    forall status,
      app.GET_tickets status (snd (app.POST_tickets (Some (JDict items)) db))
      = app.GET_tickets status db.
Proof.
  intros db items H.
  assert (Hv : TicketCreate.validate (JDict items) = None).
  { unfold TicketCreate.validate, TicketCreate.validate_str_min1.
    destruct H as [-> | [-> | [-> | ->]]]; simpl; try reflexivity;
      destruct (dict_get "title" items) as [[| | |ti| |]|]; try reflexivity;
      destruct (min_length_1 ti); reflexivity. }
  assert (Hrun : app.POST_tickets (Some (JDict items)) db
                 = (mkResponse 422 ValidationErrors, db)).
  { unfold app.POST_tickets. now rewrite Hv. }
  split; [exact Hrun|]. intro status. now rewrite Hrun.
Qed.

Lemma invalid_create_is_rejected_witness :
  app.POST_tickets (Some (JDict [("title", JStr ""); ("description", JStr "")]))
    [Ticket.mk (Some 1) (Some "A") (Some "A") (Some "open")]
  = (mkResponse 422 ValidationErrors,
     [Ticket.mk (Some 1) (Some "A") (Some "A") (Some "open")]) /\
  forall status,
    app.GET_tickets status
      (snd (app.POST_tickets (Some (JDict [("title", JStr ""); ("description", JStr "")]))
              [Ticket.mk (Some 1) (Some "A") (Some "A") (Some "open")]))
    = app.GET_tickets status [Ticket.mk (Some 1) (Some "A") (Some "A") (Some "open")].
Proof.
  apply (invalid_create_is_rejected
           [Ticket.mk (Some 1) (Some "A") (Some "A") (Some "open")]
           [("title", JStr ""); ("description", JStr "")]).
  right. left. reflexivity.
Defined.

(** * What update and delete do on a row that exists *)

(** X26. PUT on an existing row: when the patched row keeps [title] and
    [description] non-null the UPDATE is committed; the response is 200 only if
    the patched row passes the output schema, and 500 otherwise. *)
Lemma PUT_ticket_found (db : table) (i : Z) (T : Ticket.t) (b : json)
    (U : TicketUpdate.t) :
  TicketUpdate.validate b = Some U ->
  find (Ticket.has_id i) db = Some T ->
  Ticket.not_null_ok (apply_patch T U) = true ->
  app.PUT_ticket i (Some b) db =
  (match TicketOut.validate (apply_patch T U) with
   | Some x => ticket_response 200 x
   | None => server_error
   end,
   map (fun r => if Ticket.has_id i r then apply_patch T U else r) db).
Proof.
  intros Hval Hfind Hnn.
  unfold app.PUT_ticket, respond, routes.update, bind. rewrite Hval.
  rewrite (update_ticket_found db i T U Hfind Hnn). unfold ret, serialize_ticket.
  now destruct (TicketOut.validate (apply_patch T U)).
Qed.

(** PUT that sets [title] or [description] to null: the UPDATE violates
    [nullable=False], nothing is committed and the response is 500. *)
Lemma PUT_ticket_integrity (db : table) (i : Z) (T : Ticket.t) (b : json)
    (U : TicketUpdate.t) :
  TicketUpdate.validate b = Some U ->
  find (Ticket.has_id i) db = Some T ->
  Ticket.not_null_ok (apply_patch T U) = false ->
  app.PUT_ticket i (Some b) db = (server_error, db).
Proof.
  intros Hval Hfind Hnn.
  unfold app.PUT_ticket, respond, routes.update, bind. rewrite Hval.
  now rewrite (update_ticket_integrity db i T U Hfind Hnn).
Qed.

(** X27. DELETE on an existing row: the row is removed, the handler returns the
    instance as it was loaded, and a following get is a 404; the response is
    200 only if that instance passes the output schema. *)
Lemma DELETE_ticket_found (db : table) (i : Z) (T : Ticket.t) :
  find (Ticket.has_id i) db = Some T ->
  let db' := filter (fun r => negb (Ticket.has_id i r)) db in
  routes.delete i db = (Return T, db') /\
  app.DELETE_ticket i db =
  (match TicketOut.validate T with
   | Some x => ticket_response 200 x
   | None => server_error
   end, db') /\
  services.get_ticket i db' = (Return None, db') /\
  app.GET_ticket i db' = (not_found_response, db').
Proof.
  intros Hfind db'.
  assert (Hdel : routes.delete i db = (Return T, db')).
  { unfold routes.delete, bind. now rewrite (delete_ticket_found db i T Hfind). }
  assert (Hgone : find (Ticket.has_id i) db' = None) by apply find_after_delete.
  split; [exact Hdel|]. split; [|split].
  - unfold app.DELETE_ticket, respond. rewrite Hdel. unfold serialize_ticket.
    now destruct (TicketOut.validate T).
  - unfold services.get_ticket, query_first_by_id. now rewrite Hgone.
  - unfold app.GET_ticket, respond, routes.get, services.get_ticket,
      query_first_by_id, bind. now rewrite Hgone.
Qed.

(** * The column constraints are an invariant of the table *)

Lemma table_ok_create (db : table) (I : TicketCreate.t) :
  table_ok db -> table_ok (snd (services.create_ticket I db)).
Proof.
  intro Hok. rewrite create_ticket_run. simpl. unfold table_ok in *.
  apply Forall_app. split; [exact Hok|]. now repeat constructor.
Qed.

Lemma table_ok_update (db : table) (i : Z) (U : TicketUpdate.t) :
  table_ok db -> table_ok (snd (services.update_ticket i U db)).
Proof.
  intro Hok.
  destruct (find (Ticket.has_id i) db) as [T|] eqn:Hfind.
  - destruct (Ticket.not_null_ok (apply_patch T U)) eqn:Hnn.
    + rewrite (update_ticket_found db i T U Hfind Hnn). simpl.
      unfold table_ok in *. rewrite Forall_forall in *.
      intros r Hin. apply in_map_iff in Hin. destruct Hin as [r0 [<- Hin0]].
      destruct (Ticket.has_id i r0); [|now apply Hok].
      unfold row_ok. simpl Ticket.id.
      now rewrite (proj2 (find_has_id _ _ _ Hfind)).
    + now rewrite (update_ticket_integrity db i T U Hfind Hnn).
  - now rewrite (update_ticket_absent db i U Hfind).
Qed.

Lemma table_ok_delete (db : table) (i : Z) :
  table_ok db -> table_ok (snd (services.delete_ticket i db)).
Proof.
  intro Hok.
  destruct (find (Ticket.has_id i) db) as [T|] eqn:Hfind.
  - rewrite (delete_ticket_found db i T Hfind). simpl.
    unfold table_ok in *. rewrite Forall_forall in *.
    intros r Hin. apply filter_In in Hin. now apply Hok.
  - now rewrite (delete_ticket_absent db i Hfind).
Qed.

Lemma snd_respond {A : Type} (ser : outcome A -> Response) (c : DB A) (db : table) :
  snd (respond ser c db) = snd (c db).
Proof. unfold respond. now destruct (c db). Qed.

Lemma snd_bind_keep {A B : Type} (c : DB A) (k : A -> DB B) (db : table) :
  (forall a db', snd (k a db') = db') ->
  snd (bind c k db) = snd (c db).
Proof.
  intro Hk. unfold bind. destruct (c db) as [[a|e] db']; simpl; [apply Hk | reflexivity].
Qed.

Lemma table_ok_endpoint (int_of_segment : string -> option Z) (settings : Settings.t)
    (e : Endpoint) (param : option string) (req : Request) (db : table) :
  table_ok db -> table_ok (snd (run_endpoint int_of_segment settings e param req db)).
Proof.
  intro Hok. destruct e; cbn [run_endpoint]; try exact Hok.
  - unfold app.POST_tickets.
    destruct (body req) as [b|]; [|exact Hok].
    destruct (TicketCreate.validate b) as [I|]; [|exact Hok].
    rewrite snd_respond. now apply table_ok_create.
  - unfold with_ticket_id. destruct param as [s|]; [|exact Hok].
    destruct (int_of_segment s) as [i|]; [|exact Hok].
    unfold app.GET_ticket. rewrite snd_respond. unfold routes.get.
    rewrite snd_bind_keep; [exact Hok | now intros [a|] db'].
  - unfold with_ticket_id. destruct param as [s|]; [|exact Hok].
    destruct (int_of_segment s) as [i|]; [|exact Hok].
    unfold app.PUT_ticket.
    destruct (body req) as [b|]; [|exact Hok].
    destruct (TicketUpdate.validate b) as [U|]; [|exact Hok].
    rewrite snd_respond. unfold routes.update.
    rewrite snd_bind_keep; [now apply table_ok_update | now intros [a|] db'].
  - unfold with_ticket_id. destruct param as [s|]; [|exact Hok].
    destruct (int_of_segment s) as [i|]; [|exact Hok].
    unfold app.DELETE_ticket. rewrite snd_respond. unfold routes.delete.
    rewrite snd_bind_keep; [now apply table_ok_delete | now intros [a|] db'].
Qed.

(** X1. Whatever requests are served, every stored row keeps a non-null [id],
    [title] and [description]. *)
Lemma table_ok_serve_all (int_of_segment : string -> option Z) (settings : Settings.t)
    (reqs : list Request) (db : table) :
  table_ok db -> table_ok (serve_all int_of_segment settings reqs db).
Proof.
  revert db. induction reqs as [|req reqs IH]; intros db Hok; simpl; [exact Hok|].
  destruct (serve int_of_segment settings req db) as [[resp db']|] eqn:Hs;
    [|now apply IH].
  apply IH. unfold serve in Hs.
  destruct (dispatch route_table (method req) (path req)) as [e param| |];
    try discriminate.
  - injection Hs as Hs. apply (f_equal snd) in Hs. simpl in Hs. rewrite <- Hs.
    now apply table_ok_endpoint.
  - injection Hs as _ <-. exact Hok.
Qed.

(** * Claims the code departs from, evaluated at the failing requests *)

(** C7. Update with an empty string. On the table holding ticket 1 ("T", "D",
    "open"), PUT with [title] set to the empty string commits the empty title
    and is then answered 500, because the returned instance fails the
    [min_length] that the output schema inherits; the same request with an
    empty [status] is answered 200. *)
Theorem update_empty_title_commits_then_500 :
  app.PUT_ticket 1 (Some (JDict [("title", JStr "")]))
    [Ticket.mk (Some 1) (Some "T") (Some "D") (Some "open")]
  = (server_error, [Ticket.mk (Some 1) (Some "") (Some "D") (Some "open")]) /\
  app.PUT_ticket 1 (Some (JDict [("status", JStr "")]))
    [Ticket.mk (Some 1) (Some "T") (Some "D") (Some "open")]
  = (ticket_response 200 (TicketOut.mk "T" "D" 1 ""),
     [Ticket.mk (Some 1) (Some "T") (Some "D") (Some "")]).
Proof. split; reflexivity. Qed.

(** C8. Stored rows without null fields. Starting from the empty table, a
    create followed by PUT with [status] set to null leaves the stored ticket
    with a null status (the PUT and every later get of it are answered 500);
    a null [title] is refused by the column constraint and changes nothing. *)
Theorem explicit_null_status_is_stored :
  app.POST_tickets (Some (JDict [("title", JStr "T"); ("description", JStr "D")])) []
  = (ticket_response 201 (TicketOut.mk "T" "D" 1 "open"),
     [Ticket.mk (Some 1) (Some "T") (Some "D") (Some "open")]) /\
  app.PUT_ticket 1 (Some (JDict [("status", JNull)]))
    [Ticket.mk (Some 1) (Some "T") (Some "D") (Some "open")]
  = (server_error, [Ticket.mk (Some 1) (Some "T") (Some "D") None]) /\
  app.GET_ticket 1 [Ticket.mk (Some 1) (Some "T") (Some "D") None]
  = (server_error, [Ticket.mk (Some 1) (Some "T") (Some "D") None]) /\
  app.PUT_ticket 1 (Some (JDict [("title", JNull)]))
    [Ticket.mk (Some 1) (Some "T") (Some "D") (Some "open")]
  = (server_error, [Ticket.mk (Some 1) (Some "T") (Some "D") (Some "open")]).
Proof. repeat split; reflexivity. Qed.

(** The same two requests sent through the router. *)
Example null_status_reached_through_router :
  serve_all (fun s => if String.eqb s "1" then Some 1 else None)
    (Settings.mk "sqlite:///./tickets.db" "Smart API" "A mini system with FastAPI"
       "1.0.0" None None)
    [mkRequest POST ["tickets"] []
       (Some (JDict [("title", JStr "T"); ("description", JStr "D")]));
     mkRequest PUT ["tickets"; "1"] [] (Some (JDict [("status", JNull)]))] []
  = [Ticket.mk (Some 1) (Some "T") (Some "D") None].
Proof. reflexivity. Qed.

(** C9. Delete of an existing ticket. Starting from the empty table, a create
    followed by PUT with an empty [title] stores ticket 1 with an empty title;
    DELETE of id 1 then removes the row and the handler returns the instance as
    it was, but the response is 500 instead of 200; the following get is
    the 404. *)
Theorem delete_of_empty_title_ticket_500 :
  snd (app.PUT_ticket 1 (Some (JDict [("title", JStr "")]))
         (snd (app.POST_tickets
                 (Some (JDict [("title", JStr "T"); ("description", JStr "D")])) [])))
  = [Ticket.mk (Some 1) (Some "") (Some "D") (Some "open")] /\
  routes.delete 1 [Ticket.mk (Some 1) (Some "") (Some "D") (Some "open")]
  = (Return (Ticket.mk (Some 1) (Some "") (Some "D") (Some "open")), []) /\
  app.DELETE_ticket 1 [Ticket.mk (Some 1) (Some "") (Some "D") (Some "open")]
  = (server_error, []) /\
  app.GET_ticket 1 [] = (not_found_response, []).
Proof. repeat split; reflexivity. Qed.

(** * The diagnostic route *)

(** C10. GET /tickets/papo is routed to [papo], an endpoint that is none of
    create, list, get, update, delete and health; whatever the query, the body
    and the table, it is answered 200 with the fixed message and the value of
    the [ENV_] setting, and the table is unchanged. *)
Theorem papo_route_discloses_env :
  forall (int_of_segment : string -> option Z) (settings : Settings.t)
         (q : list (string * string)) (b : option json) (db : table),
    dispatch route_table GET ["tickets"; "papo"] = Full ep_papo None /\
    ~ In ep_papo [ep_create; ep_list_all; ep_get; ep_update; ep_delete; ep_health] /\
    serve int_of_segment settings (mkRequest GET ["tickets"; "papo"] q b) db =
    Some (mkResponse 200
            (Json (JDict [("message", JStr "Hello from /test route!");
                          ("secret_key", match Settings.ENV_ settings with
                                         | Some s => JStr s
                                         | None => JNull
                                         end)])),
          db).
Proof.
  intros int_of_segment settings q b db. split; [reflexivity|]. split.
  - intro Hin. simpl in Hin.
    repeat (destruct Hin as [Hin | Hin]; [discriminate Hin|]). exact Hin.
  - reflexivity.
Qed.

(** * Further properties of the service *)

(** ** Invariants of the table under any sequence of requests *)

Lemma table_ok_serve_all_witness :
  table_ok
    (serve_all (fun s => if String.eqb s "1" then Some 1 else None)
       (Settings.mk "sqlite:///./tickets.db" "Smart API" "A mini system with FastAPI"
          "1.0.0" None None)
       [mkRequest POST ["tickets"] []
          (Some (JDict [("title", JStr "T"); ("description", JStr "D")]));
        mkRequest PUT ["tickets"; "1"] [] (Some (JDict [("title", JNull)]))]
       []).
Proof.
  apply (table_ok_serve_all (fun s => if String.eqb s "1" then Some 1 else None)).
  constructor.
Defined.

Lemma next_rowid_not_a_key (db : table) :
  ~ In (Some (next_rowid db)) (map Ticket.id db).
Proof.
  intro Hin. apply in_map_iff in Hin. destruct Hin as [r [Hid Hin]].
  pose proof (find_next_rowid db) as Hf. apply absent_find in Hf.
  exact (Hf r Hin Hid).
Qed.

Lemma keys_after_update (i : Z) (o : Ticket.t) (db : table) :
  Ticket.id o = Some i ->
  map Ticket.id (map (fun r => if Ticket.has_id i r then o else r) db)
  = map Ticket.id db.
Proof.
  intro Hid. induction db as [|a db IH]; simpl; [reflexivity|].
  rewrite IH. destruct (Ticket.has_id i a) eqn:Ha; [|reflexivity].
  apply has_id_true in Ha. now rewrite Hid, Ha.
Qed.

Lemma keys_distinct_filter (keep : Ticket.t -> bool) (db : table) :
  keys_distinct db -> keys_distinct (filter keep db).
Proof.
  unfold keys_distinct. induction db as [|a db IH]; simpl; intro H; [constructor|].
  inversion H as [|x xs Hnotin Hnd]; subst.
  destruct (keep a); simpl; [|now apply IH].
  constructor; [|now apply IH].
  intro Hin. apply Hnotin. apply in_map_iff in Hin.
  destruct Hin as [b [Hb Hin]]. apply filter_In in Hin.
  apply in_map_iff. exists b. now split.
Qed.

Lemma keys_distinct_create (db : table) (I : TicketCreate.t) :
  keys_distinct db -> keys_distinct (snd (services.create_ticket I db)).
Proof.
  intro Hk. rewrite create_ticket_run. simpl. unfold keys_distinct in *.
  rewrite map_app. apply NoDup_app; [exact Hk | repeat constructor; intros [] |].
  intros a Ha [<- | []]. exact (next_rowid_not_a_key db Ha).
Qed.

Lemma keys_distinct_update (db : table) (i : Z) (U : TicketUpdate.t) :
  keys_distinct db -> keys_distinct (snd (services.update_ticket i U db)).
Proof.
  intro Hk.
  destruct (find (Ticket.has_id i) db) as [T|] eqn:Hfind.
  - destruct (Ticket.not_null_ok (apply_patch T U)) eqn:Hnn.
    + rewrite (update_ticket_found db i T U Hfind Hnn). simpl.
      unfold keys_distinct in *. rewrite keys_after_update; [exact Hk|].
      exact (proj2 (find_has_id _ _ _ Hfind)).
    + now rewrite (update_ticket_integrity db i T U Hfind Hnn).
  - now rewrite (update_ticket_absent db i U Hfind).
Qed.

Lemma keys_distinct_delete (db : table) (i : Z) :
  keys_distinct db -> keys_distinct (snd (services.delete_ticket i db)).
Proof.
  intro Hk.
  destruct (find (Ticket.has_id i) db) as [T|] eqn:Hfind.
  - rewrite (delete_ticket_found db i T Hfind). simpl.
    now apply keys_distinct_filter.
  - now rewrite (delete_ticket_absent db i Hfind).
Qed.

Section Preservation.

(** A property of the table that the three writing service functions keep is
    kept by every endpoint and by every sequence of requests. *)
Variable P : table -> Prop.
Hypothesis P_create : forall db I, P db -> P (snd (services.create_ticket I db)).
Hypothesis P_update : forall db i U, P db -> P (snd (services.update_ticket i U db)).
Hypothesis P_delete : forall db i, P db -> P (snd (services.delete_ticket i db)).

Lemma endpoint_preserves (int_of_segment : string -> option Z) (settings : Settings.t)
    (e : Endpoint) (param : option string) (req : Request) (db : table) :
  P db -> P (snd (run_endpoint int_of_segment settings e param req db)).
Proof.
  intro Hok. destruct e; cbn [run_endpoint]; try exact Hok.
  - unfold app.POST_tickets.
    destruct (body req) as [b|]; [|exact Hok].
    destruct (TicketCreate.validate b) as [I|]; [|exact Hok].
    rewrite snd_respond. now apply P_create.
  - unfold with_ticket_id. destruct param as [s|]; [|exact Hok].
    destruct (int_of_segment s) as [i|]; [|exact Hok].
    unfold app.GET_ticket. rewrite snd_respond. unfold routes.get.
    rewrite snd_bind_keep; [exact Hok | now intros [a|] db'].
  - unfold with_ticket_id. destruct param as [s|]; [|exact Hok].
    destruct (int_of_segment s) as [i|]; [|exact Hok].
    unfold app.PUT_ticket.
    destruct (body req) as [b|]; [|exact Hok].
    destruct (TicketUpdate.validate b) as [U|]; [|exact Hok].
    rewrite snd_respond. unfold routes.update.
    rewrite snd_bind_keep; [now apply P_update | now intros [a|] db'].
  - unfold with_ticket_id. destruct param as [s|]; [|exact Hok].
    destruct (int_of_segment s) as [i|]; [|exact Hok].
    unfold app.DELETE_ticket. rewrite snd_respond. unfold routes.delete.
    rewrite snd_bind_keep; [now apply P_delete | now intros [a|] db'].
Qed.

Lemma serve_all_preserves (int_of_segment : string -> option Z) (settings : Settings.t)
    (reqs : list Request) (db : table) :
  P db -> P (serve_all int_of_segment settings reqs db).
Proof.
  revert db. induction reqs as [|req reqs IH]; intros db Hok; simpl; [exact Hok|].
  destruct (serve int_of_segment settings req db) as [[resp db']|] eqn:Hs;
    [|now apply IH].
  apply IH. unfold serve in Hs.
  destruct (dispatch route_table (method req) (path req)) as [e param| |];
    try discriminate.
  - injection Hs as Hs. apply (f_equal snd) in Hs. simpl in Hs. rewrite <- Hs.
    now apply endpoint_preserves.
  - injection Hs as _ <-. exact Hok.
Qed.

End Preservation.

Section Step.

(** A relation between the table before and the table after that holds when
    nothing is written and across each of the three writing service functions
    holds across every endpoint and every served request. *)
Variable R : table -> table -> Prop.
Hypothesis R_same : forall db, R db db.
Hypothesis R_create : forall db I, R db (snd (services.create_ticket I db)).
Hypothesis R_update : forall db i U, R db (snd (services.update_ticket i U db)).
Hypothesis R_delete : forall db i, R db (snd (services.delete_ticket i db)).

Lemma endpoint_step (int_of_segment : string -> option Z) (settings : Settings.t)
    (e : Endpoint) (param : option string) (req : Request) (db : table) :
  R db (snd (run_endpoint int_of_segment settings e param req db)).
Proof.
  destruct e; cbn [run_endpoint]; try apply R_same.
  - unfold app.POST_tickets.
    destruct (body req) as [b|]; [|apply R_same].
    destruct (TicketCreate.validate b) as [I|]; [|apply R_same].
    rewrite snd_respond. apply R_create.
  - unfold with_ticket_id. destruct param as [s|]; [|apply R_same].
    destruct (int_of_segment s) as [i|]; [|apply R_same].
    unfold app.GET_ticket. rewrite snd_respond. unfold routes.get.
    rewrite snd_bind_keep; [apply R_same | now intros [a|] db'].
  - unfold with_ticket_id. destruct param as [s|]; [|apply R_same].
    destruct (int_of_segment s) as [i|]; [|apply R_same].
    unfold app.PUT_ticket.
    destruct (body req) as [b|]; [|apply R_same].
    destruct (TicketUpdate.validate b) as [U|]; [|apply R_same].
    rewrite snd_respond. unfold routes.update.
    rewrite snd_bind_keep; [apply R_update | now intros [a|] db'].
  - unfold with_ticket_id. destruct param as [s|]; [|apply R_same].
    destruct (int_of_segment s) as [i|]; [|apply R_same].
    unfold app.DELETE_ticket. rewrite snd_respond. unfold routes.delete.
    rewrite snd_bind_keep; [apply R_delete | now intros [a|] db'].
Qed.

Lemma serve_step (int_of_segment : string -> option Z) (settings : Settings.t)
    (req : Request) (db : table) (resp : Response) (db' : table) :
  serve int_of_segment settings req db = Some (resp, db') -> R db db'.
Proof.
  unfold serve. intro Hs.
  destruct (dispatch route_table (method req) (path req)) as [e param| |];
    try discriminate.
  - injection Hs as Hs. apply (f_equal snd) in Hs. simpl in Hs. rewrite <- Hs.
    apply endpoint_step.
  - injection Hs as _ <-. apply R_same.
Qed.

End Step.

(** X2. Whatever requests are served, the primary keys of the stored rows stay
    pairwise distinct. *)
Theorem keys_distinct_serve_all :
  forall (int_of_segment : string -> option Z) (settings : Settings.t)
         (reqs : list Request) (db : table),
    keys_distinct db ->
    keys_distinct (serve_all int_of_segment settings reqs db).
Proof.
  intros int_of_segment settings reqs db.
  apply serve_all_preserves.
  - exact keys_distinct_create.
  - exact keys_distinct_update.
  - exact keys_distinct_delete.
Qed.

Lemma keys_distinct_serve_all_witness :
  keys_distinct
    (serve_all (fun s => if String.eqb s "1" then Some 1 else None)
       (Settings.mk "sqlite:///./tickets.db" "Smart API" "A mini system with FastAPI"
          "1.0.0" None None)
       [mkRequest POST ["tickets"] []
          (Some (JDict [("title", JStr "A"); ("description", JStr "A")]));
        mkRequest DELETE ["tickets"; "1"] [] None;
        mkRequest POST ["tickets"] []
          (Some (JDict [("title", JStr "B"); ("description", JStr "B")]))]
       []).
Proof.
  apply (keys_distinct_serve_all (fun s => if String.eqb s "1" then Some 1 else None)).
  constructor.
Defined.

(** ** What the writing operations leave alone *)

Lemma find_other_after_update (i j : Z) (o : Ticket.t) (db : table) :
  j <> i -> Ticket.id o = Some i ->
  find (Ticket.has_id j) (map (fun r => if Ticket.has_id i r then o else r) db)
  = find (Ticket.has_id j) db.
Proof.
  intros Hne Hid. induction db as [|a db IH]; simpl; [reflexivity|].
  rewrite IH. destruct (Ticket.has_id i a) eqn:Ha; [|reflexivity].
  apply has_id_true in Ha.
  assert (Ho : Ticket.has_id j o = false).
  { unfold Ticket.has_id. rewrite Hid. apply Z.eqb_neq. congruence. }
  assert (Hja : Ticket.has_id j a = false).
  { unfold Ticket.has_id. rewrite Ha. apply Z.eqb_neq. congruence. }
  now rewrite Ho, Hja.
Qed.

Lemma find_other_after_delete (i j : Z) (db : table) :
  j <> i ->
  find (Ticket.has_id j) (filter (fun r => negb (Ticket.has_id i r)) db)
  = find (Ticket.has_id j) db.
Proof.
  intro Hne. induction db as [|a db IH]; simpl; [reflexivity|].
  destruct (Ticket.has_id i a) eqn:Ha; simpl.
  - apply has_id_true in Ha.
    assert (Hja : Ticket.has_id j a = false).
    { unfold Ticket.has_id. rewrite Ha. apply Z.eqb_neq. congruence. }
    now rewrite Hja.
  - now rewrite IH.
Qed.

Lemma filter_absent (i : Z) (db : table) :
  absent i db -> filter (fun r => negb (Ticket.has_id i r)) db = db.
Proof.
  induction db as [|a db IH]; simpl; intro Habs; [reflexivity|].
  assert (Ha : Ticket.has_id i a = false).
  { destruct (Ticket.has_id i a) eqn:E; [|reflexivity].
    apply has_id_true in E. now destruct (Habs a (or_introl eq_refl)). }
  rewrite Ha. simpl. f_equal. apply IH.
  intros r Hin. apply Habs. now right.
Qed.

Lemma max_rowid_attained (db : table) (m : Z) :
  max_rowid db = Some m -> exists r, In r db /\ Ticket.id r = Some m.
Proof.
  revert m. induction db as [|a db IH]; simpl; intros m H; [discriminate|].
  destruct (Ticket.id a) as [i|] eqn:Ha.
  - destruct (max_rowid db) as [m'|].
    + injection H as <-. destruct (Z.max_spec i m') as [[_ ->] | [_ ->]].
      * destruct (IH m' eq_refl) as [r [Hin Hr]]. exists r. auto.
      * exists a. auto.
    + injection H as <-. exists a. auto.
  - destruct (IH m H) as [r [Hin Hr]]. exists r. auto.
Qed.

Lemma next_rowid_at_most (db : table) (c : Z) :
  keys_below c db -> 0 < c -> next_rowid db <= c.
Proof.
  intros Hb Hc. unfold next_rowid.
  destruct (max_rowid db) as [m|] eqn:Hm; [|lia].
  destruct (max_rowid_attained db m Hm) as [r [Hin Hr]].
  specialize (Hb r m Hin Hr). lia.
Qed.

(** X3. While every key of the table is below the largest key of the store,
    create gives the new ticket an id that no row had, that is larger than
    every id in the table and at most the largest key; it appends exactly
    that row, and every other id resolves as before. *)
Theorem create_ticket_fresh_id_and_frame :
  forall (db : table) (I : TicketCreate.t),
    keys_below largest_key db ->
    exists (n : Z) (T : Ticket.t),
      services.create_ticket I db = (Return T, db ++ [T]) /\
      Ticket.id T = Some n /\
      absent n db /\
      (forall r k, In r db -> Ticket.id r = Some k -> k < n) /\
      n <= largest_key /\
      (forall j, j <> n ->
         fst (services.get_ticket j (db ++ [T])) = fst (services.get_ticket j db)).
Proof.
  intros db I Hbelow. exists (next_rowid db), (created_row db I).
  split; [apply create_ticket_run|]. split; [reflexivity|].
  split; [apply absent_find, find_next_rowid|]. split; [|split].
  - intros r k Hin Hk. destruct (max_rowid_bound db r k Hin Hk) as [m [Hm Hle]].
    unfold next_rowid. rewrite Hm. lia.
  - apply next_rowid_at_most; [exact Hbelow | reflexivity].
  - intros j Hne. unfold services.get_ticket, query_first_by_id. simpl.
    rewrite find_snoc. destruct (find (Ticket.has_id j) db); [reflexivity|].
    unfold Ticket.has_id. simpl.
    destruct (Z.eqb_spec (next_rowid db) j); [congruence | reflexivity].
Qed.

Lemma create_ticket_fresh_id_and_frame_witness :
  exists (n : Z) (T : Ticket.t),
    services.create_ticket (TicketCreate.mk "B" "B")
      [Ticket.mk (Some 7) (Some "A") (Some "A") (Some "closed")]
    = (Return T, [Ticket.mk (Some 7) (Some "A") (Some "A") (Some "closed")] ++ [T]) /\
    Ticket.id T = Some n /\
    absent n [Ticket.mk (Some 7) (Some "A") (Some "A") (Some "closed")] /\
    (forall r k,
        In r [Ticket.mk (Some 7) (Some "A") (Some "A") (Some "closed")] ->
        Ticket.id r = Some k -> k < n) /\
    n <= largest_key /\
    (forall j, j <> n ->
       fst (services.get_ticket j
              ([Ticket.mk (Some 7) (Some "A") (Some "A") (Some "closed")] ++ [T]))
       = fst (services.get_ticket j
                [Ticket.mk (Some 7) (Some "A") (Some "A") (Some "closed")])).
Proof.
  apply (create_ticket_fresh_id_and_frame
           [Ticket.mk (Some 7) (Some "A") (Some "A") (Some "closed")]
           (TicketCreate.mk "B" "B")).
  intros r k [<- | []] Hk. injection Hk as <-. reflexivity.
Defined.

(** X4. Update of one id, whatever its outcome, neither adds nor removes a
    row nor changes a primary key, and every other id resolves to the ticket
    it resolved to before. *)
Theorem update_ticket_frame :
  forall (db : table) (i j : Z) (U : TicketUpdate.t),
    map Ticket.id (snd (services.update_ticket i U db)) = map Ticket.id db /\
    (j <> i ->
     fst (services.get_ticket j (snd (services.update_ticket i U db)))
     = fst (services.get_ticket j db)).
Proof.
  intros db i j U.
  destruct (find (Ticket.has_id i) db) as [T|] eqn:Hfind.
  - destruct (Ticket.not_null_ok (apply_patch T U)) eqn:Hnn.
    + rewrite (update_ticket_found db i T U Hfind Hnn). simpl.
      assert (Hid : Ticket.id (apply_patch T U) = Some i)
        by exact (proj2 (find_has_id _ _ _ Hfind)).
      split; [now apply keys_after_update|].
      intro Hne. now rewrite find_other_after_update.
    + rewrite (update_ticket_integrity db i T U Hfind Hnn). now split.
  - rewrite (update_ticket_absent db i U Hfind). now split.
Qed.

Lemma update_ticket_frame_witness :
  map Ticket.id
    (snd (services.update_ticket 1 (TicketUpdate.mk (Some (Some "X")) None None)
            [Ticket.mk (Some 1) (Some "A") (Some "A") (Some "open");
             Ticket.mk (Some 2) (Some "B") (Some "B") (Some "open")]))
  = [Some 1; Some 2] /\
  fst (services.get_ticket 2
         (snd (services.update_ticket 1 (TicketUpdate.mk (Some (Some "X")) None None)
                 [Ticket.mk (Some 1) (Some "A") (Some "A") (Some "open");
                  Ticket.mk (Some 2) (Some "B") (Some "B") (Some "open")])))
  = Return (Some (Ticket.mk (Some 2) (Some "B") (Some "B") (Some "open"))).
Proof.
  destruct (update_ticket_frame
              [Ticket.mk (Some 1) (Some "A") (Some "A") (Some "open");
               Ticket.mk (Some 2) (Some "B") (Some "B") (Some "open")]
              1 2 (TicketUpdate.mk (Some (Some "X")) None None)) as [Hkeys Hother].
  split; [exact Hkeys|]. apply Hother. discriminate.
Defined.

Lemma length_after_delete (i : Z) (T : Ticket.t) (db : table) :
  keys_distinct db -> find (Ticket.has_id i) db = Some T ->
  List.length db = S (List.length (filter (fun r => negb (Ticket.has_id i r)) db)).
Proof.
  unfold keys_distinct. induction db as [|a db IH]; simpl; intros Hk Hf;
    [discriminate|].
  inversion Hk as [|x xs Hnotin Hnd]; subst.
  destruct (Ticket.has_id i a) eqn:Ha; simpl.
  - f_equal. rewrite filter_absent; [reflexivity|].
    intros r Hin Hid. apply has_id_true in Ha. apply Hnotin.
    apply in_map_iff. exists r. split; [congruence | exact Hin].
  - f_equal. now apply IH.
Qed.

(** X5. Delete of an id that exists, in a table with distinct keys, removes
    exactly one row; whatever its outcome, delete of one id leaves every other
    id resolving to the ticket it resolved to before. *)
Theorem delete_ticket_frame :
  forall (db : table) (i j : Z),
    (j <> i ->
     fst (services.get_ticket j (snd (services.delete_ticket i db)))
     = fst (services.get_ticket j db)) /\
    (keys_distinct db -> ~ absent i db ->
     List.length db = S (List.length (snd (services.delete_ticket i db)))).
Proof.
  intros db i j.
  destruct (find (Ticket.has_id i) db) as [T|] eqn:Hfind.
  - rewrite (delete_ticket_found db i T Hfind). simpl. split.
    + intro Hne. now rewrite find_other_after_delete.
    + intros Hk _. now apply (length_after_delete i T).
  - rewrite (delete_ticket_absent db i Hfind). split; [reflexivity|].
    intros _ Hpresent. destruct Hpresent. now apply absent_find.
Qed.

Lemma delete_ticket_frame_witness :
  fst (services.get_ticket 2
         (snd (services.delete_ticket 1
                 [Ticket.mk (Some 1) (Some "A") (Some "A") (Some "open");
                  Ticket.mk (Some 2) (Some "B") (Some "B") (Some "open")])))
  = Return (Some (Ticket.mk (Some 2) (Some "B") (Some "B") (Some "open"))) /\
  List.length [Ticket.mk (Some 1) (Some "A") (Some "A") (Some "open");
          Ticket.mk (Some 2) (Some "B") (Some "B") (Some "open")]
  = S (List.length (snd (services.delete_ticket 1
                      [Ticket.mk (Some 1) (Some "A") (Some "A") (Some "open");
                       Ticket.mk (Some 2) (Some "B") (Some "B") (Some "open")]))).
Proof.
  destruct (delete_ticket_frame
              [Ticket.mk (Some 1) (Some "A") (Some "A") (Some "open");
               Ticket.mk (Some 2) (Some "B") (Some "B") (Some "open")] 1 2)
    as [Hother Hlen].
  split.
  - apply Hother. discriminate.
  - apply Hlen.
    + repeat constructor; simpl; intuition discriminate.
    + intro Habs. exact (Habs _ (or_introl eq_refl) eq_refl).
Defined.

Lemma delete_created_row (db : table) (I : TicketCreate.t) :
  services.delete_ticket (next_rowid db) (db ++ [created_row db I])
  = (Return (Some (created_row db I)), db).
Proof.
  assert (Hfind : find (Ticket.has_id (next_rowid db)) (db ++ [created_row db I])
                  = Some (created_row db I)).
  { rewrite find_snoc, find_next_rowid. unfold Ticket.has_id. simpl.
    now rewrite Z.eqb_refl. }
  rewrite (delete_ticket_found _ _ _ Hfind). f_equal.
  rewrite filter_app, filter_absent by (apply absent_find, find_next_rowid).
  simpl. unfold Ticket.has_id at 1. simpl. rewrite Z.eqb_refl. simpl.
  now rewrite app_nil_r.
Qed.

(** X6. Create followed by delete of the ticket just created restores the
    table exactly as it was, and the delete returns the created ticket. *)
Theorem create_then_delete_restores :
  forall (db : table) (I : TicketCreate.t),
    exists (n : Z) (T : Ticket.t) (db' : table),
      services.create_ticket I db = (Return T, db') /\
      Ticket.id T = Some n /\
      services.delete_ticket n db' = (Return (Some T), db).
Proof.
  intros db I. exists (next_rowid db), (created_row db I), (db ++ [created_row db I]).
  split; [apply create_ticket_run|]. split; [reflexivity|].
  apply delete_created_row.
Qed.

(** X7. Ids are reused: in the default store, while every key of the table
    is below the largest key of the store, when the ticket just created is
    deleted the next create gives its ticket the same id. *)
Theorem deleted_last_id_is_reused :
  forall (db : table) (I1 I2 : TicketCreate.t),
    keys_below largest_key db ->
    exists (n : Z) (T1 T2 : Ticket.t) (db1 db2 db3 : table),
      services.create_ticket I1 db = (Return T1, db1) /\
      services.delete_ticket n db1 = (Return (Some T1), db2) /\
      services.create_ticket I2 db2 = (Return T2, db3) /\
      Ticket.id T1 = Some n /\ Ticket.id T2 = Some n /\
      n <= largest_key /\ keys_below largest_key db2.
Proof.
  intros db I1 I2 Hbelow.
  exists (next_rowid db), (created_row db I1), (created_row db I2),
    (db ++ [created_row db I1]), db, (db ++ [created_row db I2]).
  split; [apply create_ticket_run|]. split; [apply delete_created_row|].
  split; [apply create_ticket_run|]. split; [reflexivity|]. split; [reflexivity|].
  split; [apply next_rowid_at_most; [exact Hbelow | reflexivity] | exact Hbelow].
Qed.

Lemma deleted_last_id_is_reused_witness :
  exists (n : Z) (T1 T2 : Ticket.t) (db1 db2 db3 : table),
    services.create_ticket (TicketCreate.mk "B" "B")
      [Ticket.mk (Some 1) (Some "A") (Some "A") (Some "open")]
    = (Return T1, db1) /\
    services.delete_ticket n db1 = (Return (Some T1), db2) /\
    services.create_ticket (TicketCreate.mk "C" "C") db2 = (Return T2, db3) /\
    Ticket.id T1 = Some n /\ Ticket.id T2 = Some n /\
    n <= largest_key /\ keys_below largest_key db2.
Proof.
  apply (deleted_last_id_is_reused
           [Ticket.mk (Some 1) (Some "A") (Some "A") (Some "open")]
           (TicketCreate.mk "B" "B") (TicketCreate.mk "C" "C")).
  intros r k [<- | []] Hk. injection Hk as <-. reflexivity.
Defined.

(** ** Update: what a payload does to the row *)

(** X8. Partial update in general: on a table that satisfies its column
    constraints, a payload that sets neither [title] nor [description] to null
    is committed; a following [get_ticket] returns the same instance, in which
    every field the payload sets has the payload's value and every field it
    leaves unset, and the id, are as before. *)
Theorem update_ticket_applies_set_fields :
  forall (db : table) (i : Z) (T : Ticket.t) (U : TicketUpdate.t),
    table_ok db ->
    services.get_ticket i db = (Return (Some T), db) ->
    TicketUpdate.title U <> Some None ->
    TicketUpdate.description U <> Some None ->
    exists (T' : Ticket.t) (db' : table),
      services.update_ticket i U db = (Return (Some T'), db') /\
      services.get_ticket i db' = (Return (Some T'), db') /\
      Ticket.id T' = Ticket.id T /\
      Ticket.title T' = match TicketUpdate.title U with
                        | Some v => v
                        | None => Ticket.title T
                        end /\
      Ticket.description T' = match TicketUpdate.description U with
                              | Some v => v
                              | None => Ticket.description T
                              end /\
      Ticket.status T' = match TicketUpdate.status U with
                         | Some v => v
                         | None => Ticket.status T
                         end.
Proof.
  intros db i T U Hok Hget Hti Hde.
  unfold services.get_ticket, query_first_by_id in Hget. injection Hget as Hfind.
  pose proof (table_ok_row db i T Hok Hfind) as HT.
  assert (Hnn : Ticket.not_null_ok (apply_patch T U) = true).
  { unfold Ticket.not_null_ok, apply_patch in *. simpl.
    destruct (Ticket.title T), (Ticket.description T); try discriminate.
    destruct (TicketUpdate.title U) as [[a|]|], (TicketUpdate.description U) as [[b|]|];
      congruence. }
  exists (apply_patch T U),
    (map (fun r => if Ticket.has_id i r then apply_patch T U else r) db).
  split; [exact (update_ticket_found db i T U Hfind Hnn)|]. split.
  - unfold services.get_ticket, query_first_by_id.
    rewrite (find_after_update i (apply_patch T U) T db Hfind); [reflexivity|].
    exact (proj2 (find_has_id _ _ _ Hfind)).
  - repeat split.
Qed.

Lemma update_ticket_applies_set_fields_witness :
  exists (T' : Ticket.t) (db' : table),
    services.update_ticket 1 (TicketUpdate.mk (Some (Some "Updated")) None (Some (Some "closed")))
      [Ticket.mk (Some 1) (Some "To Update") (Some "Body") (Some "open")]
    = (Return (Some T'), db') /\
    services.get_ticket 1 db' = (Return (Some T'), db') /\
    Ticket.id T' = Some 1 /\
    Ticket.title T' = Some "Updated" /\
    Ticket.description T' = Some "Body" /\
    Ticket.status T' = Some "closed".
Proof.
  apply (update_ticket_applies_set_fields
           [Ticket.mk (Some 1) (Some "To Update") (Some "Body") (Some "open")] 1
           (Ticket.mk (Some 1) (Some "To Update") (Some "Body") (Some "open"))
           (TicketUpdate.mk (Some (Some "Updated")) None (Some (Some "closed")))).
  - repeat constructor.
  - reflexivity.
  - discriminate.
  - discriminate.
Defined.

Lemma same_key_same_row (db : table) (a b : Ticket.t) :
  keys_distinct db -> In a db -> In b db -> Ticket.id a = Ticket.id b -> a = b.
Proof.
  unfold keys_distinct. induction db as [|r db IH]; simpl; intros Hk Ha Hb Hid;
    [contradiction|].
  inversion Hk as [|x xs Hnotin Hnd]; subst.
  destruct Ha as [-> | Ha], Hb as [-> | Hb].
  - reflexivity.
  - destruct Hnotin. rewrite Hid. now apply in_map.
  - destruct Hnotin. rewrite <- Hid. now apply in_map.
  - now apply IH.
Qed.

Lemma replace_by_itself (db : table) (i : Z) (T : Ticket.t) :
  keys_distinct db -> find (Ticket.has_id i) db = Some T ->
  map (fun r => if Ticket.has_id i r then T else r) db = db.
Proof.
  intros Hk Hfind. destruct (find_has_id _ _ _ Hfind) as [HinT HidT].
  rewrite <- (map_id db) at 2. apply map_ext_in. intros r Hin.
  destruct (Ticket.has_id i r) eqn:Hr; [|reflexivity].
  apply has_id_true in Hr. apply (same_key_same_row db); try assumption.
  congruence.
Qed.

(** X9. An update whose payload sets no field changes nothing: on a table
    with distinct keys that satisfies its column constraints it returns the
    ticket as it is and leaves the table as it was. *)
Theorem update_ticket_empty_payload_is_noop :
  forall (db : table) (i : Z) (T : Ticket.t),
    table_ok db -> keys_distinct db ->
    services.get_ticket i db = (Return (Some T), db) ->
    services.update_ticket i (TicketUpdate.mk None None None) db
    = (Return (Some T), db).
Proof.
  intros db i T Hok Hk Hget.
  unfold services.get_ticket, query_first_by_id in Hget. injection Hget as Hfind.
  assert (Hp : apply_patch T (TicketUpdate.mk None None None) = T) by now destruct T.
  rewrite (update_ticket_found db i T _ Hfind);
    rewrite Hp; [|exact (table_ok_row db i T Hok Hfind)].
  now rewrite (replace_by_itself db i T Hk Hfind).
Qed.

Lemma update_ticket_empty_payload_is_noop_witness :
  services.update_ticket 2 (TicketUpdate.mk None None None)
    [Ticket.mk (Some 1) (Some "A") (Some "A") (Some "open");
     Ticket.mk (Some 2) (Some "B") (Some "B") (Some "closed")]
  = (Return (Some (Ticket.mk (Some 2) (Some "B") (Some "B") (Some "closed"))),
     [Ticket.mk (Some 1) (Some "A") (Some "A") (Some "open");
      Ticket.mk (Some 2) (Some "B") (Some "B") (Some "closed")]).
Proof.
  apply (update_ticket_empty_payload_is_noop
           [Ticket.mk (Some 1) (Some "A") (Some "A") (Some "open");
            Ticket.mk (Some 2) (Some "B") (Some "B") (Some "closed")] 2
           (Ticket.mk (Some 2) (Some "B") (Some "B") (Some "closed"))).
  - repeat constructor.
  - repeat constructor; simpl; intuition discriminate.
  - reflexivity.
Defined.

Lemma apply_patch_twice (T : Ticket.t) (U : TicketUpdate.t) :
  apply_patch (apply_patch T U) U = apply_patch T U.
Proof.
  destruct T as [i ti de st], U as [[a|] [b|] [c|]]; reflexivity.
Qed.

Lemma update_rows_twice (i : Z) (o : Ticket.t) (db : table) :
  Ticket.id o = Some i ->
  map (fun r => if Ticket.has_id i r then o else r)
    (map (fun r => if Ticket.has_id i r then o else r) db)
  = map (fun r => if Ticket.has_id i r then o else r) db.
Proof.
  intro Hid. apply has_id_true in Hid. rewrite map_map. apply map_ext.
  intro r. destruct (Ticket.has_id i r) eqn:Hr; [now rewrite Hid | now rewrite Hr].
Qed.

(** X10. Update is idempotent: sending the same payload to the same id a
    second time gives the same outcome and leaves the table as the first
    update left it. *)
Theorem update_ticket_idempotent :
  forall (db : table) (i : Z) (U : TicketUpdate.t),
    services.update_ticket i U (snd (services.update_ticket i U db))
    = services.update_ticket i U db.
Proof.
  intros db i U.
  destruct (find (Ticket.has_id i) db) as [T|] eqn:Hfind.
  - destruct (Ticket.not_null_ok (apply_patch T U)) eqn:Hnn.
    + assert (Hid : Ticket.id (apply_patch T U) = Some i)
        by exact (proj2 (find_has_id _ _ _ Hfind)).
      rewrite (update_ticket_found db i T U Hfind Hnn). simpl.
      rewrite (update_ticket_found _ i (apply_patch T U) U);
        rewrite ?apply_patch_twice; try assumption.
      * now rewrite update_rows_twice.
      * now apply (find_after_update i _ T).
    + rewrite (update_ticket_integrity db i T U Hfind Hnn). simpl.
      exact (update_ticket_integrity db i T U Hfind Hnn).
  - rewrite (update_ticket_absent db i U Hfind). simpl.
    exact (update_ticket_absent db i U Hfind).
Qed.

(** X11. A PUT that sets [title] or [description] to null on an existing
    ticket is answered 500 and commits nothing, whatever else the payload
    sets. *)
Theorem PUT_null_title_or_description_commits_nothing :
  forall (db : table) (i : Z) (T : Ticket.t) (b : json) (U : TicketUpdate.t),
    TicketUpdate.validate b = Some U ->
    services.get_ticket i db = (Return (Some T), db) ->
    TicketUpdate.title U = Some None \/ TicketUpdate.description U = Some None ->
    app.PUT_ticket i (Some b) db = (server_error, db).
Proof.
  intros db i T b U Hval Hget Hnull.
  unfold services.get_ticket, query_first_by_id in Hget. injection Hget as Hfind.
  apply (PUT_ticket_integrity db i T b U Hval Hfind).
  unfold Ticket.not_null_ok, apply_patch. simpl.
  destruct Hnull as [-> | ->]; [reflexivity|].
  now destruct (TicketUpdate.title U) as [[a|]|]; destruct (Ticket.title T).
Qed.

Lemma PUT_null_title_or_description_commits_nothing_witness :
  app.PUT_ticket 1
    (Some (JDict [("status", JStr "closed"); ("description", JNull)]))
    [Ticket.mk (Some 1) (Some "A") (Some "A") (Some "open")]
  = (server_error, [Ticket.mk (Some 1) (Some "A") (Some "A") (Some "open")]).
Proof.
  apply (PUT_null_title_or_description_commits_nothing
           [Ticket.mk (Some 1) (Some "A") (Some "A") (Some "open")] 1
           (Ticket.mk (Some 1) (Some "A") (Some "A") (Some "open"))
           (JDict [("status", JStr "closed"); ("description", JNull)])
           (TicketUpdate.mk None (Some None) (Some (Some "closed")))).
  - reflexivity.
  - reflexivity.
  - right. reflexivity.
Defined.

(** ** Request validation *)

Lemma validate_opt_str_sent (v : option json) :
  TicketUpdate.validate_opt_str v =
  match v with
  | None => Some None
  | Some j => if str_or_null j then Some (sent_value v) else None
  end.
Proof. destruct v as [[| | | | |]|]; reflexivity. Qed.

Lemma validate_update_none_iff (items : list (string * json)) :
  TicketUpdate.validate (JDict items) = None <->
  exists k v, In k update_fields /\ dict_get k items = Some v /\ str_or_null v = false.
Proof.
  unfold TicketUpdate.validate, update_fields. rewrite !validate_opt_str_sent. split.
  - intro H.
    destruct (dict_get "title" items) as [vt|] eqn:Et;
      [destruct (str_or_null vt) eqn:St;
       [|exists "title", vt; simpl; now auto]|];
      (destruct (dict_get "description" items) as [vd|] eqn:Ed;
       [destruct (str_or_null vd) eqn:Sd;
        [|exists "description", vd; simpl; now auto]|]);
      (destruct (dict_get "status" items) as [vs|] eqn:Es;
       [destruct (str_or_null vs) eqn:Ss;
        [|exists "status", vs; simpl; now auto]|]);
      discriminate H.
  - intros [k [v [Hin [Hget Hbad]]]]. simpl in Hin.
    destruct Hin as [<- | [<- | [<- | []]]]; rewrite Hget, Hbad;
      try reflexivity.
    + destruct (dict_get "title" items) as [vt|]; [destruct (str_or_null vt)|];
        reflexivity.
    + destruct (dict_get "title" items) as [vt|]; [destruct (str_or_null vt)|];
        (destruct (dict_get "description" items) as [vd|];
         [destruct (str_or_null vd)|]); reflexivity.
Qed.

Lemma serialize_ticket_not_422 (code : Z) (r : outcome Ticket.t) :
  code <> 422 ->
  (forall e, r = Raise e -> e = routes.not_found \/ e = IntegrityError) ->
  status_code (serialize_ticket code r) <> 422.
Proof.
  intros Hcode Hr. unfold serialize_ticket. destruct r as [o|e].
  - destruct (TicketOut.validate o); simpl; [exact Hcode | discriminate].
  - destruct (Hr e eq_refl) as [-> | ->]; simpl; discriminate.
Qed.

Lemma routes_update_raises (i : Z) (U : TicketUpdate.t) (db : table) (e : exn) :
  fst (routes.update i U db) = Raise e -> e = routes.not_found \/ e = IntegrityError.
Proof.
  unfold routes.update, bind.
  destruct (find (Ticket.has_id i) db) as [T|] eqn:Hfind.
  - destruct (Ticket.not_null_ok (apply_patch T U)) eqn:Hnn.
    + rewrite (update_ticket_found db i T U Hfind Hnn). discriminate.
    + rewrite (update_ticket_integrity db i T U Hfind Hnn). simpl.
      intro H. injection H as <-. now right.
  - rewrite (update_ticket_absent db i U Hfind). simpl.
    intro H. injection H as <-. now left.
Qed.

Lemma PUT_accepted_body_not_422 (db : table) (i : Z) (b : json) (U : TicketUpdate.t) :
  TicketUpdate.validate b = Some U ->
  status_code (fst (app.PUT_ticket i (Some b) db)) <> 422.
Proof.
  intro Hv. unfold app.PUT_ticket, respond. rewrite Hv.
  destruct (routes.update i U db) as [r db'] eqn:Hr. simpl.
  apply serialize_ticket_not_422; [discriminate|].
  intros e ->. apply (routes_update_raises i U db). now rewrite Hr.
Qed.

Lemma validate_update_not_object (j : json) :
  (forall items, j <> JDict items) -> TicketUpdate.validate j = None.
Proof.
  intro H. destruct j as [| | | | |items]; try reflexivity.
  now destruct (H items).
Qed.

Lemma dict_get_dump_field (k name : string) (f : option (option string))
    (rest : list (string * option string)) :
  dict_get k (TicketUpdate.dump_field name f ++ rest) =
  if String.eqb k name
  then match f with
       | Some v => Some v
       | None => dict_get k rest
       end
  else dict_get k rest.
Proof.
  destruct f as [v|]; simpl; destruct (String.eqb k name); reflexivity.
Qed.

(** X13. What the payload carries is what the client sent: for a body that
    passes [TicketUpdate], the items of [model_dump(exclude_unset=True)] bind
    each of the three field names exactly when the body binds it, to the same
    string or to null, and bind no other name. *)
Theorem update_payload_round_trip :
  forall (items : list (string * json)) (U : TicketUpdate.t),
    TicketUpdate.validate (JDict items) = Some U ->
    (forall k, In k update_fields ->
       dict_get k (TicketUpdate.model_dump_exclude_unset U)
       = sent_value (dict_get k items)) /\
    (forall k, ~ In k update_fields ->
       dict_get k (TicketUpdate.model_dump_exclude_unset U) = None).
Proof.
  intros items U Hval. unfold TicketUpdate.validate in Hval.
  rewrite !validate_opt_str_sent in Hval.
  assert (Hfields :
    TicketUpdate.title U = sent_value (dict_get "title" items) /\
    TicketUpdate.description U = sent_value (dict_get "description" items) /\
    TicketUpdate.status U = sent_value (dict_get "status" items)).
  { destruct (dict_get "title" items) as [vt|];
      [destruct (str_or_null vt); [|discriminate]|];
      (destruct (dict_get "description" items) as [vd|];
       [destruct (str_or_null vd); [|discriminate]|]);
      (destruct (dict_get "status" items) as [vs|];
       [destruct (str_or_null vs); [|try discriminate]|]);
      try discriminate; injection Hval as <-; now repeat split. }
  destruct Hfields as [Ht [Hd Hs]].
  unfold TicketUpdate.model_dump_exclude_unset, update_fields. split.
  - intros k Hin. simpl in Hin.
    rewrite !dict_get_dump_field. rewrite <- (app_nil_r (TicketUpdate.dump_field _ _)).
    rewrite dict_get_dump_field. simpl dict_get.
    destruct Hin as [<- | [<- | [<- | []]]]; simpl String.eqb.
    + rewrite Ht. now destruct (sent_value (dict_get "title" items)).
    + rewrite Hd. now destruct (sent_value (dict_get "description" items)).
    + rewrite Hs. now destruct (sent_value (dict_get "status" items)).
  - intros k Hnot. simpl in Hnot.
    rewrite !dict_get_dump_field. rewrite <- (app_nil_r (TicketUpdate.dump_field _ _)).
    rewrite dict_get_dump_field. simpl dict_get.
    destruct (String.eqb_spec k "title") as [-> | _]; [tauto|].
    destruct (String.eqb_spec k "description") as [-> | _]; [tauto|].
    destruct (String.eqb_spec k "status") as [-> | _]; [tauto|].
    reflexivity.
Qed.

Lemma update_payload_round_trip_witness :
  (forall k, In k update_fields ->
     dict_get k (TicketUpdate.model_dump_exclude_unset
                   (TicketUpdate.mk None (Some None) (Some (Some "closed"))))
     = sent_value (dict_get k [("status", JStr "closed"); ("description", JNull);
                               ("id", JInt 4)])) /\
  (forall k, ~ In k update_fields ->
     dict_get k (TicketUpdate.model_dump_exclude_unset
                   (TicketUpdate.mk None (Some None) (Some (Some "closed")))) = None).
Proof.
  apply (update_payload_round_trip
           [("status", JStr "closed"); ("description", JNull); ("id", JInt 4)]
           (TicketUpdate.mk None (Some None) (Some (Some "closed")))).
  reflexivity.
Defined.



(** ** Routing *)

Lemma dispatch_route_table (m : Method) (p : list string) :
  dispatch route_table m p = resolve m p.
Proof.
  unfold resolve, route_table.
  destruct p as [|a [|b [|c p]]]; cbn [dispatch match_path].
  - reflexivity.
  - destruct (String.eqb "tickets" a), (String.eqb "health" a), m; reflexivity.
  - destruct (String.eqb "health" a), (String.eqb "tickets" a); try reflexivity;
      (destruct (String.eqb b "") eqn:Eb;
       [apply String.eqb_eq in Eb; subst b; destruct m; reflexivity
       |destruct (String.eqb "papo" b), m; reflexivity]).
  - destruct (String.eqb "health" a), (String.eqb "tickets" a); try reflexivity;
      destruct (String.eqb "papo" b), (String.eqb b ""); reflexivity.
Qed.

Lemma eqb_false_of_neq (a b : string) : a <> b -> String.eqb a b = false.
Proof. intro H. now apply String.eqb_neq. Qed.

(** X15. Routing below /tickets/: for a non-empty segment [s], PUT and DELETE
    reach update and delete with [s] as the id parameter, also when [s] is
    "papo"; GET reaches get with [s] unless [s] is "papo", which the
    diagnostic route takes first; POST is a method not allowed; the empty
    segment reaches no route. *)
Theorem tickets_segment_routing :
  forall (s : string),
    (s <> "" ->
     dispatch route_table PUT ["tickets"; s] = Full ep_update (Some s) /\
     dispatch route_table DELETE ["tickets"; s] = Full ep_delete (Some s) /\
     dispatch route_table POST ["tickets"; s] = Partial /\
     (s <> "papo" -> dispatch route_table GET ["tickets"; s] = Full ep_get (Some s))) /\
    (forall m, dispatch route_table m ["tickets"; ""] = NoMatch).
Proof.
  intro s. split.
  - intro Hne. rewrite !dispatch_route_table. unfold resolve.
    rewrite (eqb_false_of_neq s "" Hne), String.eqb_refl.
    repeat split. intro Hp.
    now rewrite (eqb_false_of_neq "papo" s) by congruence.
  - intro m. now rewrite dispatch_route_table.
Qed.

Lemma tickets_segment_routing_witness :
  dispatch route_table PUT ["tickets"; "papo"] = Full ep_update (Some "papo") /\
  dispatch route_table DELETE ["tickets"; "papo"] = Full ep_delete (Some "papo") /\
  dispatch route_table POST ["tickets"; "papo"] = Partial.
Proof.
  destruct (tickets_segment_routing "papo") as [H _].
  destruct H as [Hput [Hdel [Hpost _]]]; [discriminate|].
  repeat split; assumption.
Defined.

Lemma partial_dispatch_iff (req : Request) :
  dispatch route_table (method req) (path req) = Partial <->
  (path req = ["tickets"] /\ (method req = PUT \/ method req = DELETE)) \/
  (exists s, path req = ["tickets"; s] /\ s <> "" /\ method req = POST) \/
  (path req = ["health"] /\ method req <> GET).
Proof.
  rewrite dispatch_route_table. unfold resolve. split.
  - destruct (path req) as [|a [|b [|c p]]]; try discriminate.
    + destruct (String.eqb_spec "tickets" a) as [<- | Ha].
      * destruct (method req); try discriminate; intros _; left; auto.
      * destruct (String.eqb_spec "health" a) as [<- | Hh]; [|discriminate].
        destruct (method req); try discriminate; intros _; right; right;
          split; try reflexivity; discriminate.
    + destruct (String.eqb_spec "tickets" a) as [<- | Ha]; [|discriminate].
      destruct (String.eqb_spec b "") as [-> | Hb]; [discriminate|].
      destruct (method req); try discriminate.
      * destruct (String.eqb "papo" b); discriminate.
      * intros _. right. left. exists b. auto.
  - intros [[-> [-> | ->]] | [[s [-> [Hs ->]]] | [-> Hm]]]; try reflexivity.
    + now rewrite String.eqb_refl, (eqb_false_of_neq s "" Hs).
    + simpl. destruct (method req); try reflexivity. now destruct Hm.
Qed.

Lemma serialize_ticket_codes (code : Z) (r : outcome Ticket.t) :
  (forall e, r = Raise e -> e = routes.not_found \/ e = IntegrityError) ->
  status_code (serialize_ticket code r) = code \/
  status_code (serialize_ticket code r) = 404 \/
  status_code (serialize_ticket code r) = 500.
Proof.
  intro Hr. unfold serialize_ticket. destruct r as [o|e].
  - destruct (TicketOut.validate o); simpl; auto.
  - destruct (Hr e eq_refl) as [-> | ->]; simpl; auto.
Qed.

Lemma routes_get_raises (i : Z) (db : table) (e : exn) :
  fst (routes.get i db) = Raise e -> e = routes.not_found \/ e = IntegrityError.
Proof.
  unfold routes.get, services.get_ticket, query_first_by_id, bind.
  destruct (find (Ticket.has_id i) db); simpl; [discriminate|].
  intro H. injection H as <-. now left.
Qed.

Lemma routes_delete_raises (i : Z) (db : table) (e : exn) :
  fst (routes.delete i db) = Raise e -> e = routes.not_found \/ e = IntegrityError.
Proof.
  unfold routes.delete, bind.
  destruct (find (Ticket.has_id i) db) as [T|] eqn:Hfind.
  - rewrite (delete_ticket_found db i T Hfind). discriminate.
  - rewrite (delete_ticket_absent db i Hfind). simpl.
    intro H. injection H as <-. now left.
Qed.

Lemma fst_respond {A : Type} (ser : outcome A -> Response) (c : DB A) (db : table) :
  fst (respond ser c db) = ser (fst (c db)).
Proof. unfold respond. now destruct (c db). Qed.

Lemma run_endpoint_codes (int_of_segment : string -> option Z) (settings : Settings.t)
    (e : Endpoint) (param : option string) (req : Request) (db : table) :
  In (status_code (fst (run_endpoint int_of_segment settings e param req db)))
    [200; 201; 404; 422; 500].
Proof.
  destruct e; cbn [run_endpoint].
  - simpl. auto.
  - unfold app.POST_tickets.
    destruct (body req) as [b|]; [|simpl; auto 6].
    destruct (TicketCreate.validate b) as [I|] eqn:Hv; [|simpl; auto 6].
    rewrite fst_respond. unfold routes.create. rewrite create_ticket_run.
    destruct (validate_create_fields b I Hv) as [Ht Hd].
    cbn [fst]. unfold serialize_ticket. rewrite validate_created_row by assumption.
    simpl. auto.
  - unfold app.GET_tickets. rewrite fst_respond. unfold serialize_tickets.
    destruct (fst (routes.list_all (query_get "status" (query req)) db)) as [l|ex] eqn:E.
    + destruct (TicketOut.validate_list l); simpl; auto 6.
    + discriminate E.
  - unfold with_ticket_id. destruct param as [s|]; [|simpl; auto 6].
    destruct (int_of_segment s) as [i|]; [|simpl; auto 6].
    unfold app.GET_ticket. rewrite fst_respond.
    destruct (serialize_ticket_codes 200 (fst (routes.get i db))) as [H | [H | H]];
      try (rewrite H; simpl; auto 6).
    intros ex Hex. now apply (routes_get_raises i db).
  - unfold with_ticket_id. destruct param as [s|]; [|simpl; auto 6].
    destruct (int_of_segment s) as [i|]; [|simpl; auto 6].
    unfold app.PUT_ticket.
    destruct (body req) as [b|]; [|simpl; auto 6].
    destruct (TicketUpdate.validate b) as [U|]; [|simpl; auto 6].
    rewrite fst_respond.
    destruct (serialize_ticket_codes 200 (fst (routes.update i U db))) as [H | [H | H]];
      try (rewrite H; simpl; auto 6).
    intros ex Hex. now apply (routes_update_raises i U db).
  - unfold with_ticket_id. destruct param as [s|]; [|simpl; auto 6].
    destruct (int_of_segment s) as [i|]; [|simpl; auto 6].
    unfold app.DELETE_ticket. rewrite fst_respond.
    destruct (serialize_ticket_codes 200 (fst (routes.delete i db))) as [H | [H | H]];
      try (rewrite H; simpl; auto 6).
    intros ex Hex. now apply (routes_delete_raises i db).
  - simpl. auto.
Qed.

Lemma serve_405_iff (int_of_segment : string -> option Z) (settings : Settings.t)
    (req : Request) (db : table) :
  ((path req = ["tickets"] /\ (method req = PUT \/ method req = DELETE)) \/
   (exists s, path req = ["tickets"; s] /\ s <> "" /\ method req = POST) \/
   (path req = ["health"] /\ method req <> GET) ->
   serve int_of_segment settings req db
   = Some (mkResponse 405 (Json (JDict [("detail", JStr "Method Not Allowed")])), db)) /\
  (forall resp db',
      serve int_of_segment settings req db = Some (resp, db') ->
      status_code resp = 405 ->
      (path req = ["tickets"] /\ (method req = PUT \/ method req = DELETE)) \/
      (exists s, path req = ["tickets"; s] /\ s <> "" /\ method req = POST) \/
      (path req = ["health"] /\ method req <> GET)).
Proof.
  split.
  - intro H. apply partial_dispatch_iff in H. unfold serve. now rewrite H.
  - intros resp db' Hs Hcode. apply partial_dispatch_iff.
    unfold serve in Hs.
    destruct (dispatch route_table (method req) (path req)) as [e param| |];
      try discriminate; [exfalso | reflexivity].
    injection Hs as Hs. apply (f_equal fst) in Hs. simpl in Hs.
    pose proof (run_endpoint_codes int_of_segment settings e param req db) as Hin.
    rewrite Hs, Hcode in Hin. simpl in Hin.
    repeat (destruct Hin as [Hin | Hin]; [discriminate Hin|]). exact Hin.
Qed.


Lemma method_of_name_spec (name : string) :
  match method_of_name name with
  | Some GET => name = "GET"
  | Some POST => name = "POST"
  | Some PUT => name = "PUT"
  | Some DELETE => name = "DELETE"
  | None => name <> "GET" /\ name <> "POST" /\ name <> "PUT" /\ name <> "DELETE"
  end.
Proof.
  unfold method_of_name.
  destruct (String.eqb_spec name "GET"); [assumption|].
  destruct (String.eqb_spec name "POST"); [assumption|].
  destruct (String.eqb_spec name "PUT"); [assumption|].
  destruct (String.eqb_spec name "DELETE"); [assumption|].
  now repeat split.
Qed.

Lemma declared_path_spec (raw p : list string) :
  declared_path raw = Some p ->
  (raw = ["health"] /\ p = ["health"]) \/
  (raw = ["tickets"; ""] /\ p = ["tickets"]) \/
  (exists s, s <> "" /\ raw = ["tickets"; s] /\ p = ["tickets"; s]).
Proof.
  unfold declared_path. destruct raw as [|a [|b [|c raw]]]; try discriminate.
  - destruct (String.eqb_spec a "health") as [-> | _]; [|discriminate].
    intro H. injection H as <-. now left.
  - destruct (String.eqb_spec a "tickets") as [-> | _]; [|discriminate].
    destruct (String.eqb_spec b "") as [-> | Hb]; intro H; injection H as <-.
    + right. now left.
    + right. right. now exists b.
Qed.

(** X16. Method not allowed. A request whose path, as sent, is one a route
    declares and whose method no route on that path has (any method but GET
    and POST on /tickets/, any but GET, PUT and DELETE on /tickets/{segment},
    any but GET on /health) is answered 405 and leaves the table unchanged;
    no other request to the routes of the repository is answered 405. A
    request here carries no headers, so it is not a CORS preflight. *)
Theorem receive_405_iff :
  forall (int_of_segment : string -> option Z) (settings : Settings.t)
         (name : string) (raw : list string) (q : list (string * string))
         (b : option json) (db : table),
    (no_route_for name raw ->
     receive int_of_segment settings name raw q b db
     = Some (Served (mkResponse 405 (Json (JDict [("detail", JStr "Method Not Allowed")]))),
             db)) /\
    (forall r db',
        receive int_of_segment settings name raw q b db = Some (Served r, db') ->
        status_code r = 405 ->
        no_route_for name raw).
Proof.
  intros int_of_segment settings name raw q b db. split.
  - intro H. unfold receive. pose proof (method_of_name_spec name) as Hm.
    destruct H as [[-> [H1 H2]] | [[s [-> [Hs [H1 [H2 H3]]]]] | [-> H1]]].
    + cbn [declared_path]. rewrite !String.eqb_refl.
      destruct (method_of_name name) as [[| | |]|]; try contradiction;
        try reflexivity.
    + cbn [declared_path]. rewrite String.eqb_refl, (proj2 (String.eqb_neq s "") Hs).
      destruct (method_of_name name) as [[| | |]|]; try contradiction;
        try reflexivity.
      rewrite (proj1 (serve_405_iff int_of_segment settings
                        (mkRequest POST ["tickets"; s] q b) db));
        [reflexivity|].
      right. left. now exists s.
    + cbn [declared_path]. rewrite String.eqb_refl.
      destruct (method_of_name name) as [[| | |]|]; try contradiction;
        reflexivity.
  - intros r db' Hr Hcode. unfold receive in Hr.
    destruct (declared_path raw) as [p|] eqn:Hp.
    + pose proof (method_of_name_spec name) as Hm.
      apply declared_path_spec in Hp.
      destruct (method_of_name name) as [m|].
      * destruct (serve int_of_segment settings (mkRequest m p q b) db)
          as [[r0 db0]|] eqn:Hs; [|discriminate].
        injection Hr as <- <-.
        apply (proj2 (serve_405_iff int_of_segment settings _ db)) in Hs;
          [|exact Hcode].
        simpl in Hs. unfold no_route_for.
        destruct Hs as [[Hpath Hmeth] | [[s [Hpath [Hs Hmeth]]] | [Hpath Hmeth]]].
        -- subst p. destruct Hp as [[_ Hp] | [[-> _] | [s [_ [_ Hp]]]]];
             try discriminate.
           left. split; [reflexivity|].
           destruct Hmeth as [-> | ->]; subst name; split; discriminate.
        -- subst p m. destruct Hp as [[_ Hp] | [[_ Hp] | [s' [Hs' [-> Hp]]]]];
             try discriminate.
           injection Hp as <-. right. left. exists s. subst name.
           repeat split; try assumption; discriminate.
        -- subst p. destruct Hp as [[-> _] | [[_ Hp] | [s [_ [_ Hp]]]]];
             try discriminate.
           right. right. split; [reflexivity|].
           destruct m; subst name; try discriminate. now destruct Hmeth.
      * destruct Hm as [H1 [H2 [H3 H4]]]. unfold no_route_for.
        destruct Hp as [[-> _] | [[-> _] | [s [Hs [-> _]]]]].
        -- right. right. now split.
        -- left. now repeat split.
        -- right. left. exists s. now repeat split.
    + destruct raw as [|s [|s2 raw]].
      * destruct (declared_path (toggle_slash [])); discriminate.
      * destruct (String.eqb s ""); [discriminate|].
        destruct (declared_path (toggle_slash [s])); discriminate.
      * destruct (declared_path (toggle_slash (s :: s2 :: raw))); discriminate.
Qed.

Lemma receive_405_iff_witness :
  receive (fun _ => None)
    (Settings.mk "sqlite:///./tickets.db" "Smart API" "A mini system with FastAPI"
       "1.0.0" None None)
    "PATCH" ["tickets"; "7"] [] None
    [Ticket.mk (Some 7) (Some "A") (Some "A") (Some "open")]
  = Some (Served (mkResponse 405 (Json (JDict [("detail", JStr "Method Not Allowed")]))),
          [Ticket.mk (Some 7) (Some "A") (Some "A") (Some "open")]).
Proof.
  apply (proj1 (receive_405_iff (fun _ => None)
                  (Settings.mk "sqlite:///./tickets.db" "Smart API"
                     "A mini system with FastAPI" "1.0.0" None None)
                  "PATCH" ["tickets"; "7"] [] None
                  [Ticket.mk (Some 7) (Some "A") (Some "A") (Some "open")])).
  right. left. exists "7". repeat split; discriminate.
Defined.





(** X12. PUT /tickets/{segment}, for a non-empty segment, is answered 422
    exactly when the segment does not validate as an int, or the body is
    missing, or is not a JSON object, or gives one of [title], [description],
    [status] a value that is neither a string nor null. These checks come
    before the lookup, so they hold for absent ids too, and a 422 leaves the
    table unchanged. *)
Theorem PUT_422_iff_invalid_input :
  forall (int_of_segment : string -> option Z) (settings : Settings.t)
         (s : string) (q : list (string * string)) (b : option json)
         (db : table) (resp : Response) (db' : table),
    s <> "" ->
    serve int_of_segment settings (mkRequest PUT ["tickets"; s] q b) db
    = Some (resp, db') ->
    (status_code resp = 422 <->
     int_of_segment s = None \/
     b = None \/
     (exists j, b = Some j /\ forall items, j <> JDict items) \/
     (exists items k v,
         b = Some (JDict items) /\ In k update_fields /\
         dict_get k items = Some v /\ str_or_null v = false)) /\
    (status_code resp = 422 -> db' = db).
Proof.
  intros int_of_segment settings s q b db resp db' Hne Hs.
  unfold serve in Hs. simpl method in Hs. simpl path in Hs.
  rewrite dispatch_route_table in Hs. unfold resolve in Hs.
  rewrite (eqb_false_of_neq s "" Hne), String.eqb_refl in Hs.
  cbn [run_endpoint] in Hs. unfold with_ticket_id in Hs. simpl body in Hs.
  destruct (int_of_segment s) as [i|] eqn:Hint.
  - cbn [body] in Hs. destruct b as [j|].
    + destruct (TicketUpdate.validate j) as [U|] eqn:Hv.
      * pose proof (PUT_accepted_body_not_422 db i j U Hv) as Hnot.
        injection Hs as Hs. change (app.PUT_ticket i (Some j) db = (resp, db')) in Hs.
        rewrite Hs in Hnot. simpl in Hnot.
        split; [split|]; intro H; try contradiction.
        destruct H as [H | [H | [[j' [Hj Hno]] | [items [k [v [Hj Hbad]]]]]]];
          try discriminate.
        -- injection Hj as <-. rewrite (validate_update_not_object j Hno) in Hv.
           discriminate.
        -- injection Hj as ->.
           assert (Hnone : TicketUpdate.validate (JDict items) = None)
             by (apply validate_update_none_iff; now exists k, v).
           congruence.
      * unfold app.PUT_ticket in Hs. rewrite Hv in Hs.
        injection Hs as <- <-. split; [|reflexivity].
        split; [intros _ | reflexivity]. right. right.
        destruct j as [| | | | |items];
          try (left; eexists; split; [reflexivity | discriminate]).
        right. apply validate_update_none_iff in Hv.
        destruct Hv as [k [v Hbad]]. now exists items, k, v.
    + injection Hs as <- <-. split; [|reflexivity].
      split; [intros _; now right; left | reflexivity].
  - injection Hs as <- <-. split; [|reflexivity].
    split; [intros _; now left | reflexivity].
Qed.

Lemma PUT_422_iff_invalid_input_witness :
  (status_code (mkResponse 422 ValidationErrors) = 422 <->
   (fun _ : string => Some 9999999) "9999999" = None \/
   Some (JList []) = None \/
   (exists j, Some (JList []) = Some j /\ forall items, j <> JDict items) \/
   (exists items k v,
       Some (JList []) = Some (JDict items) /\ In k update_fields /\
       dict_get k items = Some v /\ str_or_null v = false)) /\
  (status_code (mkResponse 422 ValidationErrors) = 422 ->
   [Ticket.mk (Some 1) (Some "A") (Some "A") (Some "open")]
   = [Ticket.mk (Some 1) (Some "A") (Some "A") (Some "open")]).
Proof.
  apply (PUT_422_iff_invalid_input (fun _ => Some 9999999)
           (Settings.mk "sqlite:///./tickets.db" "Smart API"
              "A mini system with FastAPI" "1.0.0" None None)
           "9999999" [] (Some (JList []))
           [Ticket.mk (Some 1) (Some "A") (Some "A") (Some "open")]
           (mkResponse 422 ValidationErrors)
           [Ticket.mk (Some 1) (Some "A") (Some "A") (Some "open")]).
  - discriminate.
  - reflexivity.
Defined.

Lemma read_endpoint_keeps_table (int_of_segment : string -> option Z)
    (settings : Settings.t) (e : Endpoint) (param : option string) (req : Request)
    (db : table) :
  e = ep_papo \/ e = ep_list_all \/ e = ep_get \/ e = ep_health ->
  snd (run_endpoint int_of_segment settings e param req db) = db.
Proof.
  intros [-> | [-> | [-> | ->]]]; cbn [run_endpoint]; try reflexivity.
  unfold with_ticket_id. destruct param as [s|]; [|reflexivity].
  destruct (int_of_segment s) as [i|]; [|reflexivity].
  unfold app.GET_ticket. rewrite snd_respond. unfold routes.get.
  rewrite snd_bind_keep; [reflexivity | now intros [a|] db'].
Qed.

(** X18. GET is safe: no GET request, whatever its path, query and body, and
    whatever it is answered, changes the table. *)
Theorem GET_never_changes_table :
  forall (int_of_segment : string -> option Z) (settings : Settings.t)
         (req : Request) (db : table) (resp : Response) (db' : table),
    method req = GET ->
    serve int_of_segment settings req db = Some (resp, db') ->
    db' = db.
Proof.
  intros int_of_segment settings req db resp db' Hm Hs.
  unfold serve in Hs. rewrite dispatch_route_table, Hm in Hs.
  assert (Hread : forall e param, resolve GET (path req) = Full e param ->
            e = ep_papo \/ e = ep_list_all \/ e = ep_get \/ e = ep_health).
  { unfold resolve. intros e param.
    destruct (path req) as [|a [|b [|c p]]]; try discriminate.
    - destruct (String.eqb "tickets" a); [|destruct (String.eqb "health" a)];
        try discriminate; intro H; injection H as <- _; auto.
    - destruct (String.eqb "tickets" a); [|discriminate].
      destruct (String.eqb b ""); [discriminate|].
      destruct (String.eqb "papo" b); intro H; injection H as <- _; auto. }
  destruct (resolve GET (path req)) as [e param| |]; try discriminate.
  - injection Hs as Hs. apply (f_equal snd) in Hs. simpl in Hs. rewrite <- Hs.
    apply read_endpoint_keeps_table. now apply (Hread e param).
  - now injection Hs as _ <-.
Qed.

Lemma GET_never_changes_table_witness :
  [Ticket.mk (Some 1) (Some "T") (Some "D") None]
  = [Ticket.mk (Some 1) (Some "T") (Some "D") None].
Proof.
  symmetry.
  apply (GET_never_changes_table (fun s => if String.eqb s "1" then Some 1 else None)
           (Settings.mk "sqlite:///./tickets.db" "Smart API"
              "A mini system with FastAPI" "1.0.0" None None)
           (mkRequest GET ["tickets"; "1"] [] None)
           [Ticket.mk (Some 1) (Some "T") (Some "D") None]
           server_error
           [Ticket.mk (Some 1) (Some "T") (Some "D") None]).
  - reflexivity.
  - reflexivity.
Defined.

(** ** Where a 500 can come from *)

Lemma validate_list_presentable (l : list Ticket.t) :
  Forall (fun r => TicketOut.validate r <> None) l <->
  TicketOut.validate_list l <> None.
Proof.
  induction l as [|a l IH]; simpl.
  - split; [discriminate | constructor].
  - split.
    + intro H. inversion H as [|x xs Ha Hl]; subst. apply IH in Hl.
      destruct (TicketOut.validate a); [|contradiction].
      destruct (TicketOut.validate_list l); [discriminate | contradiction].
    + intro H. destruct (TicketOut.validate a) eqn:Ea; [|contradiction].
      destruct (TicketOut.validate_list l) eqn:El; [|contradiction].
      constructor; [congruence|]. apply IH. discriminate.
Qed.

Lemma presentable_filter (p : Ticket.t -> bool) (db : table) :
  presentable db -> presentable (filter p db).
Proof.
  unfold presentable. rewrite !Forall_forall. intros H r Hin.
  apply filter_In in Hin. now apply H.
Qed.

Lemma presentable_find (db : table) (i : Z) (T : Ticket.t) :
  presentable db -> find (Ticket.has_id i) db = Some T ->
  TicketOut.validate T <> None.
Proof.
  unfold presentable. rewrite Forall_forall. intros H Hf.
  apply H. exact (proj1 (find_has_id _ _ _ Hf)).
Qed.

Lemma benign_patch (T : Ticket.t) (U : TicketUpdate.t) :
  TicketOut.validate T <> None -> benign_update U = true ->
  TicketOut.validate (apply_patch T U) <> None /\
  Ticket.not_null_ok (apply_patch T U) = true.
Proof.
  unfold TicketOut.validate, benign_update, apply_patch, Ticket.not_null_ok.
  destruct T as [[i|] [ti|] [de|] [st|]]; simpl; try (intros H; now destruct H).
  destruct (min_length_1 ti) eqn:Eti, (min_length_1 de) eqn:Ede; simpl;
    try (intros H; now destruct H).
  intros _.
  destruct U as [[[a|]|] [[b|]|] [[c|]|]]; simpl;
    try discriminate;
    try (destruct (min_length_1 a) eqn:Ea); try (destruct (min_length_1 b) eqn:Eb);
    simpl; try discriminate; intros _; rewrite ?Eti, ?Ede; simpl;
    split; (discriminate || reflexivity).
Qed.

Lemma update_endpoint_method (m : Method) (p : list string) (param : option string) :
  resolve m p = Full ep_update param -> m = PUT.
Proof.
  unfold resolve. destruct p as [|a [|b [|c p]]]; try discriminate.
  - destruct (String.eqb "tickets" a); [|destruct (String.eqb "health" a)];
      destruct m; discriminate.
  - destruct (String.eqb "tickets" a); [|discriminate].
    destruct (String.eqb b ""); [discriminate|].
    destruct m; try discriminate; try reflexivity.
    destruct (String.eqb "papo" b); discriminate.
Qed.

Lemma benign_endpoint (int_of_segment : string -> option Z) (settings : Settings.t)
    (e : Endpoint) (param : option string) (req : Request) (db : table) :
  presentable db ->
  (e = ep_update ->
   forall b U, body req = Some b -> TicketUpdate.validate b = Some U ->
               benign_update U = true) ->
  presentable (snd (run_endpoint int_of_segment settings e param req db)) /\
  status_code (fst (run_endpoint int_of_segment settings e param req db)) <> 500.
Proof.
  intros Hp Hb. destruct e; cbn [run_endpoint].
  - split; [exact Hp | discriminate].
  - unfold app.POST_tickets.
    destruct (body req) as [b|]; [|split; [exact Hp | discriminate]].
    destruct (TicketCreate.validate b) as [I|] eqn:Hv;
      [|split; [exact Hp | discriminate]].
    destruct (validate_create_fields b I Hv) as [Ht Hd].
    rewrite snd_respond, fst_respond. unfold routes.create.
    rewrite create_ticket_run. cbn [fst snd]. split.
    + apply Forall_app. split; [exact Hp|]. constructor; [|constructor].
      now rewrite validate_created_row.
    + unfold serialize_ticket. rewrite validate_created_row by assumption.
      discriminate.
  - split; [exact Hp|].
    unfold app.GET_tickets. rewrite fst_respond.
    unfold routes.list_all, services.get_all_tickets, query_all, bind, ret.
    cbn [fst]. unfold serialize_tickets.
    match goal with
    | |- context [TicketOut.validate_list ?l] =>
        assert (Hl : TicketOut.validate_list l <> None)
    end.
    { apply validate_list_presentable.
      destruct (truthy (query_get "status" (query req)));
        [now apply presentable_filter | exact Hp]. }
    match goal with
    | |- context [TicketOut.validate_list ?l] =>
        destruct (TicketOut.validate_list l); [discriminate | contradiction]
    end.
  - unfold with_ticket_id. destruct param as [s|]; [|split; [exact Hp | discriminate]].
    destruct (int_of_segment s) as [i|]; [|split; [exact Hp | discriminate]].
    unfold app.GET_ticket. rewrite snd_respond, fst_respond.
    unfold routes.get, services.get_ticket, query_first_by_id, bind.
    destruct (find (Ticket.has_id i) db) as [T|] eqn:Hfind; cbn [fst snd ret raise];
      (split; [exact Hp|]); [|discriminate].
    pose proof (presentable_find db i T Hp Hfind) as HT. unfold serialize_ticket.
    destruct (TicketOut.validate T); [discriminate | contradiction].
  - unfold with_ticket_id. destruct param as [s|]; [|split; [exact Hp | discriminate]].
    destruct (int_of_segment s) as [i|]; [|split; [exact Hp | discriminate]].
    unfold app.PUT_ticket.
    destruct (body req) as [b|] eqn:Eb; [|split; [exact Hp | discriminate]].
    destruct (TicketUpdate.validate b) as [U|] eqn:Hv;
      [|split; [exact Hp | discriminate]].
    rewrite snd_respond, fst_respond. unfold routes.update, bind.
    destruct (find (Ticket.has_id i) db) as [T|] eqn:Hfind.
    + pose proof (presentable_find db i T Hp Hfind) as HT.
      destruct (benign_patch T U HT (Hb eq_refl b U eq_refl Hv)) as [Hvp Hnn].
      rewrite (update_ticket_found db i T U Hfind Hnn). cbn [fst snd ret]. split.
      * unfold presentable in *. rewrite Forall_forall in *.
        intros r Hin. apply in_map_iff in Hin. destruct Hin as [r0 [<- Hin0]].
        destruct (Ticket.has_id i r0); [exact Hvp | now apply Hp].
      * unfold serialize_ticket.
        destruct (TicketOut.validate (apply_patch T U)); [discriminate | contradiction].
    + rewrite (update_ticket_absent db i U Hfind). cbn [fst snd raise].
      split; [exact Hp | discriminate].
  - unfold with_ticket_id. destruct param as [s|]; [|split; [exact Hp | discriminate]].
    destruct (int_of_segment s) as [i|]; [|split; [exact Hp | discriminate]].
    unfold app.DELETE_ticket. rewrite snd_respond, fst_respond.
    unfold routes.delete, bind.
    destruct (find (Ticket.has_id i) db) as [T|] eqn:Hfind.
    + pose proof (presentable_find db i T Hp Hfind) as HT.
      rewrite (delete_ticket_found db i T Hfind). cbn [fst snd ret]. split.
      * now apply presentable_filter.
      * unfold serialize_ticket.
        destruct (TicketOut.validate T); [discriminate | contradiction].
    + rewrite (delete_ticket_absent db i Hfind). cbn [fst snd raise].
      split; [exact Hp | discriminate].
  - split; [exact Hp | discriminate].
Qed.

(** X20. A 500 needs a bad PUT. On a table whose rows all pass the output
    schema, a request whose id, if it has one, is within the store's 64-bit
    keys, and that is not a PUT setting a field to null or setting [title] or
    [description] to the empty string, is never answered 500, and the rows
    still all pass the output schema afterwards. *)
Theorem benign_request_never_500 :
  forall (int_of_segment : string -> option Z) (settings : Settings.t)
         (req : Request) (db : table) (resp : Response) (db' : table),
    presentable db ->
    benign req = true ->
    (forall s i, path req = ["tickets"; s] -> int_of_segment s = Some i ->
                 in_store_range i = true) ->
    serve int_of_segment settings req db = Some (resp, db') ->
    presentable db' /\ status_code resp <> 500.
Proof.
  intros int_of_segment settings req db resp db' Hp Hb _ Hs. unfold serve in Hs.
  rewrite dispatch_route_table in Hs.
  destruct (resolve (method req) (path req)) as [e param| |] eqn:Hr;
    try discriminate.
  - injection Hs as Hs.
    destruct (benign_endpoint int_of_segment settings e param req db Hp) as [H1 H2].
    + intros -> b U Eb Hv. apply update_endpoint_method in Hr.
      unfold benign in Hb. now rewrite Hr, Eb, Hv in Hb.
    + rewrite Hs in H1, H2. now split.
  - injection Hs as <- <-. split; [exact Hp | discriminate].
Qed.

Lemma benign_request_never_500_witness :
  presentable [Ticket.mk (Some 1) (Some "Updated") (Some "D") (Some "closed")] /\
  status_code (ticket_response 200 (TicketOut.mk "Updated" "D" 1 "closed")) <> 500.
Proof.
  apply (benign_request_never_500
           (fun s => if String.eqb s "1" then Some 1 else None)
           (Settings.mk "sqlite:///./tickets.db" "Smart API"
              "A mini system with FastAPI" "1.0.0" None None)
           (mkRequest PUT ["tickets"; "1"] []
              (Some (JDict [("title", JStr "Updated"); ("status", JStr "closed")])))
           [Ticket.mk (Some 1) (Some "T") (Some "D") (Some "open")]).
  - repeat constructor. discriminate.
  - reflexivity.
  - intros s i Hpath Hint. simpl in Hpath. injection Hpath as <-.
    simpl in Hint. injection Hint as <-. reflexivity.
  - reflexivity.
Defined.

(** ** Listing *)

Lemma validate_list_none_exists (l : list Ticket.t) :
  TicketOut.validate_list l = None <->
  exists r, In r l /\ TicketOut.validate r = None.
Proof.
  induction l as [|a l IH]; simpl.
  - split; [discriminate | intros [r [[] _]]].
  - destruct (TicketOut.validate a) as [x|] eqn:Ea.
    + destruct (TicketOut.validate_list l) as [xs|].
      * split; [discriminate|]. intros [r [[<- | Hin] Hr]]; [congruence|].
        exfalso. assert (H : Some xs = None) by (apply IH; now exists r).
        discriminate H.
      * split; [|reflexivity]. intros _.
        destruct (proj1 IH eq_refl) as [r [Hin Hr]]. exists r. auto.
    + split; [|reflexivity]. intros _. exists a. auto.
Qed.

(** X21. One row that fails the output schema fails every list that selects
    it: GET /tickets/ is answered 500 exactly when one of the tickets the
    handler selects fails the output schema, and 200 with one JSON ticket per
    selected row, in order, otherwise; rows the filter leaves out do no
    harm. *)
Theorem list_500_iff_a_selected_row_fails :
  forall (db : table) (status : option string) (items : list Ticket.t),
    routes.list_all status db = (Return items, db) ->
    ((exists r, In r items /\ TicketOut.validate r = None) <->
     app.GET_tickets status db = (server_error, db)) /\
    ((forall r, In r items -> TicketOut.validate r <> None) <->
     exists xs, TicketOut.validate_list items = Some xs /\
                List.length xs = List.length items /\
                app.GET_tickets status db
                = (mkResponse 200 (Json (JList (map TicketOut.to_json xs))), db)).
Proof.
  intros db status items Hrun.
  unfold app.GET_tickets, respond. rewrite Hrun. unfold serialize_tickets.
  rewrite <- validate_list_none_exists, <- Forall_forall, validate_list_presentable.
  assert (Hlen : forall l xs, TicketOut.validate_list l = Some xs ->
                              List.length xs = List.length l).
  { induction l as [|a l IH]; simpl; intros xs H.
    - now injection H as <-.
    - destruct (TicketOut.validate a); [|discriminate].
      destruct (TicketOut.validate_list l) as [ys|]; [|discriminate].
      injection H as <-. simpl. f_equal. now apply IH. }
  destruct (TicketOut.validate_list items) as [xs|] eqn:E; split; split;
    try discriminate; try reflexivity; try congruence.
  - intros _. exists xs. repeat split. now apply Hlen.
  - intros [xs [H _]]. discriminate H.
Qed.

Lemma list_500_iff_a_selected_row_fails_witness :
  ((exists r,
       In r [Ticket.mk (Some 2) (Some "") (Some "B") (Some "open")] /\
       TicketOut.validate r = None) <->
   app.GET_tickets (Some "open")
     [Ticket.mk (Some 1) (Some "A") (Some "A") None;
      Ticket.mk (Some 2) (Some "") (Some "B") (Some "open")]
   = (server_error,
      [Ticket.mk (Some 1) (Some "A") (Some "A") None;
       Ticket.mk (Some 2) (Some "") (Some "B") (Some "open")])) /\
  ((forall r,
       In r [Ticket.mk (Some 2) (Some "") (Some "B") (Some "open")] ->
       TicketOut.validate r <> None) <->
   exists xs,
     TicketOut.validate_list [Ticket.mk (Some 2) (Some "") (Some "B") (Some "open")]
     = Some xs /\
     List.length xs
     = List.length [Ticket.mk (Some 2) (Some "") (Some "B") (Some "open")] /\
     app.GET_tickets (Some "open")
       [Ticket.mk (Some 1) (Some "A") (Some "A") None;
        Ticket.mk (Some 2) (Some "") (Some "B") (Some "open")]
     = (mkResponse 200 (Json (JList (map TicketOut.to_json xs))),
        [Ticket.mk (Some 1) (Some "A") (Some "A") None;
         Ticket.mk (Some 2) (Some "") (Some "B") (Some "open")])).
Proof.
  apply (list_500_iff_a_selected_row_fails
           [Ticket.mk (Some 1) (Some "A") (Some "A") None;
            Ticket.mk (Some 2) (Some "") (Some "B") (Some "open")]
           (Some "open")
           [Ticket.mk (Some 2) (Some "") (Some "B") (Some "open")]).
  reflexivity.
Defined.

Lemma filter_after_status_change (i : Z) (w : string) (o : Ticket.t) (db : table) :
  Ticket.id o = Some i -> status_is w o = false ->
  filter (status_is w) (map (fun r => if Ticket.has_id i r then o else r) db)
  = filter (fun r => negb (Ticket.has_id i r)) (filter (status_is w) db).
Proof.
  intros Hid Hst. induction db as [|a db IH]; simpl; [reflexivity|].
  destruct (Ticket.has_id i a) eqn:Ha.
  - rewrite Hst. destruct (status_is w a); simpl; [now rewrite Ha | exact IH].
  - destruct (status_is w a); simpl; [now rewrite Ha, IH | exact IH].
Qed.

(** X22. Closing a ticket takes it out of the open list: when an update that
    sets [status] to a value other than [w] succeeds on id [i], the list
    filtered by the non-empty status [w] is afterwards the list it was before
    without the ticket of id [i]; the other selected tickets and their order
    are as before. *)
Theorem update_status_leaves_filtered_list :
  forall (db db' : table) (i : Z) (U : TicketUpdate.t) (T' : Ticket.t)
         (v : option string) (w : string),
    services.update_ticket i U db = (Return (Some T'), db') ->
    TicketUpdate.status U = Some v -> v <> Some w -> w <> "" ->
    exists items,
      routes.list_all (Some w) db = (Return items, db) /\
      routes.list_all (Some w) db'
      = (Return (filter (fun r => negb (Ticket.has_id i r)) items), db').
Proof.
  intros db db' i U T' v w Hup Hst Hv Hw.
  assert (Htruthy : truthy (Some w) = true).
  { simpl. now rewrite (eqb_false_of_neq w "" Hw). }
  unfold routes.list_all, services.get_all_tickets, query_all, bind, ret.
  rewrite Htruthy. eexists. split; [reflexivity|]. f_equal. f_equal.
  change (fun o => match Ticket.status o, Some w with
                   | Some a, Some b => String.eqb a b
                   | None, None => true
                   | _, _ => false
                   end) with (status_is w).
  destruct (find (Ticket.has_id i) db) as [T|] eqn:Hfind.
  - destruct (Ticket.not_null_ok (apply_patch T U)) eqn:Hnn.
    + rewrite (update_ticket_found db i T U Hfind Hnn) in Hup.
      injection Hup as _ <-. apply filter_after_status_change.
      * exact (proj2 (find_has_id _ _ _ Hfind)).
      * unfold status_is, apply_patch. simpl. rewrite Hst.
        destruct v as [a|]; [|reflexivity].
        apply eqb_false_of_neq. congruence.
    + rewrite (update_ticket_integrity db i T U Hfind Hnn) in Hup. discriminate.
  - rewrite (update_ticket_absent db i U Hfind) in Hup. discriminate.
Qed.

Lemma update_status_leaves_filtered_list_witness :
  exists items,
    routes.list_all (Some "open")
      [Ticket.mk (Some 1) (Some "A") (Some "A") (Some "open");
       Ticket.mk (Some 2) (Some "B") (Some "B") (Some "open")]
    = (Return items,
       [Ticket.mk (Some 1) (Some "A") (Some "A") (Some "open");
        Ticket.mk (Some 2) (Some "B") (Some "B") (Some "open")]) /\
    routes.list_all (Some "open")
      [Ticket.mk (Some 1) (Some "A") (Some "A") (Some "open");
       Ticket.mk (Some 2) (Some "B") (Some "B") (Some "closed")]
    = (Return (filter (fun r => negb (Ticket.has_id 2 r)) items),
       [Ticket.mk (Some 1) (Some "A") (Some "A") (Some "open");
        Ticket.mk (Some 2) (Some "B") (Some "B") (Some "closed")]).
Proof.
  apply (update_status_leaves_filtered_list
           [Ticket.mk (Some 1) (Some "A") (Some "A") (Some "open");
            Ticket.mk (Some 2) (Some "B") (Some "B") (Some "open")]
           [Ticket.mk (Some 1) (Some "A") (Some "A") (Some "open");
            Ticket.mk (Some 2) (Some "B") (Some "B") (Some "closed")]
           2 (TicketUpdate.mk None None (Some (Some "closed")))
           (Ticket.mk (Some 2) (Some "B") (Some "B") (Some "closed"))
           (Some "closed") "open").
  - reflexivity.
  - reflexivity.
  - discriminate.
  - discriminate.
Defined.

(** ** Order of the rows *)

Lemma StronglySorted_snoc {A : Type} (R : A -> A -> Prop) (l : list A) (x : A) :
  StronglySorted R l -> Forall (fun a => R a x) l -> StronglySorted R (l ++ [x]).
Proof.
  induction l as [|a l IH]; simpl; intros Hs Hall.
  - repeat constructor.
  - inversion Hs as [|y ys Hs' Ha]; subst.
    inversion Hall as [|y ys Hax Hall']; subst.
    constructor; [now apply IH|].
    apply Forall_app. split; [exact Ha | now repeat constructor].
Qed.

Lemma keys_increasing_filter (keep : Ticket.t -> bool) (db : table) :
  keys_increasing db -> keys_increasing (filter keep db).
Proof.
  unfold keys_increasing. induction db as [|a db IH]; simpl; intro Hs; [constructor|].
  inversion Hs as [|y ys Hs' Ha]; subst.
  destruct (keep a); simpl; [|now apply IH].
  constructor; [now apply IH|].
  rewrite Forall_forall in *. intros b Hb. apply Ha.
  apply in_map_iff in Hb. destruct Hb as [r [<- Hr]].
  apply filter_In in Hr. now apply in_map.
Qed.

Lemma keys_below_next_rowid (db : table) :
  table_ok db -> Forall (fun a => key_lt a (Some (next_rowid db))) (map Ticket.id db).
Proof.
  intro Hok. unfold table_ok in Hok. rewrite Forall_forall in *.
  intros a Ha. apply in_map_iff in Ha. destruct Ha as [r [<- Hr]].
  specialize (Hok r Hr). unfold row_ok in Hok.
  destruct (Ticket.id r) as [k|] eqn:Hk; [|discriminate]. simpl.
  destruct (max_rowid_bound db r k Hr Hk) as [m [Hm Hle]].
  unfold next_rowid. rewrite Hm. lia.
Qed.

Lemma ordered_create (db : table) (I : TicketCreate.t) :
  table_ok db /\ keys_increasing db ->
  table_ok (snd (services.create_ticket I db)) /\
  keys_increasing (snd (services.create_ticket I db)).
Proof.
  intros [Hok Hs]. split; [now apply table_ok_create|].
  rewrite create_ticket_run. simpl. unfold keys_increasing in *.
  rewrite map_app. apply StronglySorted_snoc; [exact Hs|].
  now apply keys_below_next_rowid.
Qed.

Lemma ordered_update (db : table) (i : Z) (U : TicketUpdate.t) :
  table_ok db /\ keys_increasing db ->
  table_ok (snd (services.update_ticket i U db)) /\
  keys_increasing (snd (services.update_ticket i U db)).
Proof.
  intros [Hok Hs]. split; [now apply table_ok_update|].
  destruct (find (Ticket.has_id i) db) as [T|] eqn:Hfind.
  - destruct (Ticket.not_null_ok (apply_patch T U)) eqn:Hnn.
    + rewrite (update_ticket_found db i T U Hfind Hnn). simpl.
      unfold keys_increasing in *. rewrite keys_after_update; [exact Hs|].
      exact (proj2 (find_has_id _ _ _ Hfind)).
    + now rewrite (update_ticket_integrity db i T U Hfind Hnn).
  - now rewrite (update_ticket_absent db i U Hfind).
Qed.

Lemma ordered_delete (db : table) (i : Z) :
  table_ok db /\ keys_increasing db ->
  table_ok (snd (services.delete_ticket i db)) /\
  keys_increasing (snd (services.delete_ticket i db)).
Proof.
  intros [Hok Hs]. split; [now apply table_ok_delete|].
  destruct (find (Ticket.has_id i) db) as [T|] eqn:Hfind.
  - rewrite (delete_ticket_found db i T Hfind). simpl.
    now apply keys_increasing_filter.
  - now rewrite (delete_ticket_absent db i Hfind).
Qed.

Lemma keys_below_step (db db' : table) :
  (db' = db \/
   (exists I, db' = snd (services.create_ticket I db)) \/
   (exists i U, db' = snd (services.update_ticket i U db)) \/
   (exists i, db' = snd (services.delete_ticket i db))) ->
  forall c, keys_below c db -> 0 < c -> keys_below (c + 1) db'.
Proof.
  intros Hstep c Hb Hc.
  assert (Hweak : forall t, (forall r, In r t -> exists r0, In r0 db /\
                                         Ticket.id r0 = Ticket.id r) ->
                            keys_below (c + 1) t).
  { intros t Ht r k Hin Hk. destruct (Ht r Hin) as [r0 [Hin0 Hid]].
    rewrite <- Hid in Hk. specialize (Hb r0 k Hin0 Hk). lia. }
  destruct Hstep as [-> | [[I ->] | [[i [U ->]] | [i ->]]]].
  - apply Hweak. intros r Hin. now exists r.
  - rewrite create_ticket_run. simpl. intros r k Hin Hk.
    apply in_app_or in Hin. destruct Hin as [Hin | [<- | []]].
    + specialize (Hb r k Hin Hk). lia.
    + simpl in Hk. injection Hk as <-.
      pose proof (next_rowid_at_most db c Hb Hc). lia.
  - apply Hweak. intros r Hin.
    destruct (find (Ticket.has_id i) db) as [T|] eqn:Hfind.
    + destruct (Ticket.not_null_ok (apply_patch T U)) eqn:Hnn.
      * rewrite (update_ticket_found db i T U Hfind Hnn) in Hin. simpl in Hin.
        apply in_map_iff in Hin. destruct Hin as [r0 [Hr0 Hin0]].
        exists r0. split; [exact Hin0|].
        destruct (Ticket.has_id i r0) eqn:Hi; subst r; [|reflexivity].
        apply has_id_true in Hi. rewrite Hi. simpl.
        symmetry. exact (proj2 (find_has_id _ _ _ Hfind)).
      * rewrite (update_ticket_integrity db i T U Hfind Hnn) in Hin. now exists r.
    + rewrite (update_ticket_absent db i U Hfind) in Hin. now exists r.
  - apply Hweak. intros r Hin.
    destruct (find (Ticket.has_id i) db) as [T|] eqn:Hfind.
    + rewrite (delete_ticket_found db i T Hfind) in Hin. simpl in Hin.
      apply filter_In in Hin. exists r. now split.
    + rewrite (delete_ticket_absent db i Hfind) in Hin. now exists r.
Qed.

Lemma keys_below_serve_all (int_of_segment : string -> option Z)
    (settings : Settings.t) (reqs : list Request) :
  forall (db : table) (c : Z),
    keys_below c db -> 0 < c ->
    keys_below (c + Z.of_nat (List.length reqs))
      (serve_all int_of_segment settings reqs db).
Proof.
  induction reqs as [|req reqs IH]; intros db c Hb Hc.
  - simpl. intros r k Hin Hk. specialize (Hb r k Hin Hk). lia.
  - cbn [serve_all List.length]. rewrite Nat2Z.inj_succ.
    replace (c + Z.succ (Z.of_nat (List.length reqs)))
      with ((c + 1) + Z.of_nat (List.length reqs)) by lia.
    destruct (serve int_of_segment settings req db) as [[resp db']|] eqn:Hs.
    + apply IH; [|lia].
      apply (serve_step (fun t t' => forall c0, keys_below c0 t -> 0 < c0 ->
                                                keys_below (c0 + 1) t'))
        with (c0 := c) in Hs; try assumption.
      * intros t. apply keys_below_step. now left.
      * intros t I. apply keys_below_step. right. left. now exists I.
      * intros t i U. apply keys_below_step. right. right. left. now exists i, U.
      * intros t i. apply keys_below_step. right. right. right. now exists i.
    + apply IH; [|lia]. intros r k Hin Hk. specialize (Hb r k Hin Hk). lia.
Qed.

(** X23. The rows stay in creation order, which is increasing id order. In
    the default store, starting from a table that satisfies its column
    constraints and is ordered by id, and serving a sequence of requests short
    enough that no key can reach the largest key of the store, the table, and
    so every list the handlers return, stays in strictly increasing order of
    id, and every key stays below the largest key. *)
Theorem keys_increasing_serve_all :
  forall (int_of_segment : string -> option Z) (settings : Settings.t)
         (reqs : list Request) (db : table),
    table_ok db -> keys_increasing db ->
    keys_below (largest_key - Z.of_nat (List.length reqs)) db ->
    Z.of_nat (List.length reqs) < largest_key ->
    keys_increasing (serve_all int_of_segment settings reqs db) /\
    keys_below largest_key (serve_all int_of_segment settings reqs db).
Proof.
  intros int_of_segment settings reqs db Hok Hs Hb Hlen. split.
  - apply (serve_all_preserves (fun t => table_ok t /\ keys_increasing t)).
    + intros t I. apply ordered_create.
    + intros t i U. apply ordered_update.
    + intros t i. apply ordered_delete.
    + now split.
  - replace largest_key
      with ((largest_key - Z.of_nat (List.length reqs)) + Z.of_nat (List.length reqs))
      at 1 by lia.
    apply keys_below_serve_all; [exact Hb | lia].
Qed.

Lemma keys_increasing_serve_all_witness :
  keys_increasing
    (serve_all (fun s => if String.eqb s "2" then Some 2 else None)
       (Settings.mk "sqlite:///./tickets.db" "Smart API" "A mini system with FastAPI"
          "1.0.0" None None)
       [mkRequest POST ["tickets"] []
          (Some (JDict [("title", JStr "A"); ("description", JStr "A")]));
        mkRequest POST ["tickets"] []
          (Some (JDict [("title", JStr "B"); ("description", JStr "B")]));
        mkRequest DELETE ["tickets"; "2"] [] None;
        mkRequest POST ["tickets"] []
          (Some (JDict [("title", JStr "C"); ("description", JStr "C")]))]
       []) /\
  keys_below largest_key
    (serve_all (fun s => if String.eqb s "2" then Some 2 else None)
       (Settings.mk "sqlite:///./tickets.db" "Smart API" "A mini system with FastAPI"
          "1.0.0" None None)
       [mkRequest POST ["tickets"] []
          (Some (JDict [("title", JStr "A"); ("description", JStr "A")]));
        mkRequest POST ["tickets"] []
          (Some (JDict [("title", JStr "B"); ("description", JStr "B")]));
        mkRequest DELETE ["tickets"; "2"] [] None;
        mkRequest POST ["tickets"] []
          (Some (JDict [("title", JStr "C"); ("description", JStr "C")]))]
       []).
Proof.
  apply (keys_increasing_serve_all (fun s => if String.eqb s "2" then Some 2 else None)).
  - constructor.
  - constructor.
  - intros r k [].
  - reflexivity.
Defined.

(** ** Settings *)

(** X24. The settings are read once: after a first call of [get_settings],
    every later call returns the instance the first call returned, whatever
    the environment has become, so the value that /tickets/papo discloses is
    fixed at first use. *)
Theorem get_settings_reads_environment_once :
  forall (environ : Type) (Settings_init : environ -> Settings.t)
         (cache : option Settings.t) (env0 : environ) (envs : list environ),
    Forall (fun s => s = fst (get_settings environ Settings_init cache env0))
      (get_settings_calls environ Settings_init
         (snd (get_settings environ Settings_init cache env0)) envs) /\
    Forall (fun s => routes.papo s
                     = routes.papo (fst (get_settings environ Settings_init cache env0)))
      (get_settings_calls environ Settings_init
         (snd (get_settings environ Settings_init cache env0)) envs).
Proof.
  intros environ Settings_init cache env0 envs.
  assert (H : forall s l, Forall (fun x => x = s)
                            (get_settings_calls environ Settings_init (Some s) l)).
  { intros s l. induction l as [|e l IH]; simpl; constructor; [reflexivity | exact IH]. }
  assert (Hc : snd (get_settings environ Settings_init cache env0)
               = Some (fst (get_settings environ Settings_init cache env0)))
    by now destruct cache.
  rewrite Hc. split; [apply H|].
  eapply Forall_impl; [|apply H]. now intros s ->.
Qed.

(** ** Reading back an update *)

Lemma to_json_injective (x y : TicketOut.t) :
  TicketOut.to_json x = TicketOut.to_json y -> x = y.
Proof.
  destruct x, y. unfold TicketOut.to_json. simpl. intro H.
  injection H. intros. now subst.
Qed.

(** X25. Read your writes: when PUT on an id is answered 200 with a ticket, a
    following GET of that id is answered 200 with the same ticket. *)
Theorem PUT_200_then_GET_same_ticket :
  forall (db db' : table) (i : Z) (body : option json) (x : TicketOut.t),
    app.PUT_ticket i body db = (ticket_response 200 x, db') ->
    app.GET_ticket i db' = (ticket_response 200 x, db').
Proof.
  intros db db' i body x Hput. unfold app.PUT_ticket in Hput.
  destruct body as [b|]; [|discriminate].
  destruct (TicketUpdate.validate b) as [U|]; [|discriminate].
  unfold respond, routes.update, bind in Hput.
  destruct (find (Ticket.has_id i) db) as [T|] eqn:Hfind.
  - destruct (Ticket.not_null_ok (apply_patch T U)) eqn:Hnn.
    + rewrite (update_ticket_found db i T U Hfind Hnn) in Hput.
      unfold ret, serialize_ticket in Hput.
      destruct (TicketOut.validate (apply_patch T U)) as [x'|] eqn:Hv;
        [|discriminate].
      unfold ticket_response in Hput.
      assert (Hx : x' = x) by (apply to_json_injective; congruence).
      assert (Hdb : db' = map (fun r => if Ticket.has_id i r then apply_patch T U
                                        else r) db) by congruence.
      subst x' db'.
      unfold app.GET_ticket, respond, routes.get, services.get_ticket,
        query_first_by_id, bind.
      rewrite (find_after_update i (apply_patch T U) T db Hfind)
        by exact (proj2 (find_has_id _ _ _ Hfind)).
      unfold ret, serialize_ticket. now rewrite Hv.
    + rewrite (update_ticket_integrity db i T U Hfind Hnn) in Hput. discriminate.
  - rewrite (update_ticket_absent db i U Hfind) in Hput. discriminate.
Qed.

Lemma PUT_200_then_GET_same_ticket_witness :
  app.GET_ticket 1 [Ticket.mk (Some 1) (Some "Updated") (Some "Body") (Some "closed")]
  = (ticket_response 200 (TicketOut.mk "Updated" "Body" 1 "closed"),
     [Ticket.mk (Some 1) (Some "Updated") (Some "Body") (Some "closed")]).
Proof.
  apply (PUT_200_then_GET_same_ticket
           [Ticket.mk (Some 1) (Some "To Update") (Some "Body") (Some "open")]
           [Ticket.mk (Some 1) (Some "Updated") (Some "Body") (Some "closed")]
           1 (Some (JDict [("title", JStr "Updated"); ("status", JStr "closed")]))
           (TicketOut.mk "Updated" "Body" 1 "closed")).
  reflexivity.
Defined.

(** ** Instances of the two lemmas on existing rows *)

Lemma PUT_ticket_found_witness :
  app.PUT_ticket 1 (Some (JDict [("title", JStr "Updated"); ("status", JStr "closed")]))
    [Ticket.mk (Some 1) (Some "To Update") (Some "Body") (Some "open")]
  = (match TicketOut.validate
             (apply_patch (Ticket.mk (Some 1) (Some "To Update") (Some "Body") (Some "open"))
                (TicketUpdate.mk (Some (Some "Updated")) None (Some (Some "closed"))))
     with
     | Some x => ticket_response 200 x
     | None => server_error
     end,
     map (fun r => if Ticket.has_id 1 r
                   then apply_patch
                          (Ticket.mk (Some 1) (Some "To Update") (Some "Body") (Some "open"))
                          (TicketUpdate.mk (Some (Some "Updated")) None (Some (Some "closed")))
                   else r)
       [Ticket.mk (Some 1) (Some "To Update") (Some "Body") (Some "open")]).
Proof.
  apply (PUT_ticket_found
           [Ticket.mk (Some 1) (Some "To Update") (Some "Body") (Some "open")] 1
           (Ticket.mk (Some 1) (Some "To Update") (Some "Body") (Some "open"))
           (JDict [("title", JStr "Updated"); ("status", JStr "closed")])
           (TicketUpdate.mk (Some (Some "Updated")) None (Some (Some "closed")))).
  - reflexivity.
  - reflexivity.
  - reflexivity.
Defined.

Lemma DELETE_ticket_found_witness :
  routes.delete 1 [Ticket.mk (Some 1) (Some "To Delete") (Some "D") (Some "open")]
  = (Return (Ticket.mk (Some 1) (Some "To Delete") (Some "D") (Some "open")), []) /\
  app.DELETE_ticket 1 [Ticket.mk (Some 1) (Some "To Delete") (Some "D") (Some "open")]
  = (ticket_response 200 (TicketOut.mk "To Delete" "D" 1 "open"), []) /\
  services.get_ticket 1 [] = (Return None, []) /\
  app.GET_ticket 1 [] = (not_found_response, []).
Proof.
  apply (DELETE_ticket_found
           [Ticket.mk (Some 1) (Some "To Delete") (Some "D") (Some "open")] 1
           (Ticket.mk (Some 1) (Some "To Delete") (Some "D") (Some "open"))).
  reflexivity.
Defined.
